(** * Product-sync-page: attribute matching, validation and the variant
    mapping workflow.

    Shallow embedding of the matching and mapping logic of
    src/src/components/AttributeMapping.tsx,
    src/src/components/MultiVariantMapping.tsx,
    the App component (src/unnamed/part_002) and
    src/functions/import-to-shopify-batch.ts.

    Strings are modelled as Stdlib strings of ASCII characters; JS
    [toLowerCase], [trim] and the regex character class [\s] are written out
    on ASCII.  A JS number produced by the similarity computations is a
    rational or NaN ([jsnum]). *)

From Stdlib Require Import String Ascii QArith Sorting.Permutation
  Sorting.Sorted Lia.
From stdpp Require Import base gmap strings list.

Open Scope string_scope.

(* ------------------------------------------------------------------ *)
(** ** JS strings on ASCII *)

Definition is_upper (c : ascii) : bool :=
  (Nat.leb 65 (nat_of_ascii c)) && (Nat.leb (nat_of_ascii c) 90).

(** [String.prototype.toLowerCase] on one ASCII character. *)
Definition lower_char (c : ascii) : ascii :=
  if is_upper c then ascii_of_nat (nat_of_ascii c + 32) else c.

Fixpoint toLowerCase (s : string) : string :=
  match s with
  | EmptyString => EmptyString
  | String c s' => String (lower_char c) (toLowerCase s')
  end.

(** The JS class [\s] on ASCII: tab, LF, VT, FF, CR and space. *)
Definition is_space (c : ascii) : bool :=
  let n := nat_of_ascii c in
  ((Nat.leb 9 n) && (Nat.leb n 13)) || (Nat.eqb n 32).

Fixpoint trim_left (s : string) : string :=
  match s with
  | EmptyString => EmptyString
  | String c s' => if is_space c then trim_left s' else s
  end.

Definition rev_string (s : string) : string :=
  string_of_list_ascii (List.rev (list_ascii_of_string s)).

(** [String.prototype.trim]. *)
Definition trim (s : string) : string :=
  rev_string (trim_left (rev_string (trim_left s))).

Definition str_eqb (a b : string) : bool := String.eqb a b.

(** JS truthiness of a string: only [""] is falsy. *)
Definition str_truthy (s : string) : bool :=
  match s with EmptyString => false | _ => true end.

(* ------------------------------------------------------------------ *)
(** ** JS numbers *)

(** The values a similarity computation can produce: a finite number
    (here always rational) or NaN. *)
Inductive jsnum :=
| JNum (q : Q)
| JNaN.

(** [n / m] on the non-negative integers of the code: [0 / 0] is NaN.
    [d / m] with [m = 0] only arises with [d = 0] below. *)
Definition js_div_nat (n m : nat) : jsnum :=
  if Nat.eqb m 0 then JNaN else JNum (Z.of_nat n # Pos.of_nat m).

Definition js_sub (a b : jsnum) : jsnum :=
  match a, b with JNum x, JNum y => JNum (x - y) | _, _ => JNaN end.

Definition js_add (a b : jsnum) : jsnum :=
  match a, b with JNum x, JNum y => JNum (x + y) | _, _ => JNaN end.

(** [Math.max] of two numbers: NaN if either is NaN. *)
Definition js_max (a b : jsnum) : jsnum :=
  match a, b with
  | JNum x, JNum y => JNum (if Qle_bool x y then y else x)
  | _, _ => JNaN
  end.

(** [a > b] and [a >= b]: false as soon as one side is NaN. *)
Definition js_gt (a b : jsnum) : bool :=
  match a, b with JNum x, JNum y => negb (Qle_bool x y) | _, _ => false end.

Definition js_ge (a b : jsnum) : bool :=
  match a, b with JNum x, JNum y => Qle_bool y x | _, _ => false end.

(* ------------------------------------------------------------------ *)
(** ** getStringSimilarity (Levenshtein, both components) *)

(** One row of the [track] table.  [left] is [track[j][i-1]], [diag] is
    [track[j-1][i-1]] and [ups] are [track[j-1][i..]]. *)
Fixpoint row_tail (s1 : list ascii) (c2 : ascii) (left diag : nat)
    (ups : list nat) : list nat :=
  match s1, ups with
  | a :: s1', up :: ups' =>
      let indicator := if Ascii.eqb a c2 then 0 else 1 in
      let v := Nat.min (Nat.min (left + 1) (up + 1)) (diag + indicator) in
      v :: row_tail s1' c2 v up ups'
  | _, _ => []
  end.

(** [track[j]] from [track[j-1]]: [track[j][0] = j]. *)
Definition next_row (s1 : list ascii) (c2 : ascii) (j : nat)
    (prev : list nat) : list nat :=
  match prev with
  | p0 :: ps => j :: row_tail s1 c2 j p0 ps
  | [] => [j]
  end.

Fixpoint rows (s1 s2 : list ascii) (j : nat) (prev : list nat) : list nat :=
  match s2 with
  | [] => prev
  | c2 :: s2' => rows s1 s2' (S j) (next_row s1 c2 j prev)
  end.

(** [track[s2.length][s1.length]]. *)
Definition levenshtein (s1 s2 : list ascii) : nat :=
  List.last (rows s1 s2 1 (List.seq 0 (List.length s1 + 1))) 0.

Definition getStringSimilarity (str1 str2 : string) : jsnum :=
  let s1 := list_ascii_of_string (toLowerCase str1) in
  let s2 := list_ascii_of_string (toLowerCase str2) in
  let maxLength := Nat.max (List.length s1) (List.length s2) in
  js_sub (JNum 1) (js_div_nat (levenshtein s1 s2) maxLength).

(* ------------------------------------------------------------------ *)
(** ** validateAttributeMapping / getValidationState (AttributeMapping.tsx) *)

(** [mappedValue: string | string[]]. *)
Inductive mval :=
| MStr (s : string)
| MArr (l : list string).

Record attr_option := mkOption { opt_label : string; opt_value : string }.

Record ValidationResult := mkVR { isValid : bool; similarity : jsnum }.

Definition option_matches (mappedValue : string) (opt : attr_option) : bool :=
  str_eqb (opt_value opt) mappedValue
  || str_eqb (toLowerCase (opt_label opt)) (toLowerCase mappedValue).

Definition validateAttributeMapping (shopifyValue : string) (mappedValue : mval)
    (options : option (list attr_option)) : ValidationResult :=
  let falsy := match mappedValue with MStr s => negb (str_truthy s) | MArr _ => false end in
  let blank := match mappedValue with MStr s => negb (str_truthy (trim s)) | MArr _ => false end in
  if falsy || blank then mkVR false (JNum 0) else
  match mappedValue with
  | MArr l => mkVR (Nat.ltb 0 (List.length l)) (JNum 1)
  | MStr mv =>
      match options with
      | None =>
          mkVR true (if str_eqb (toLowerCase shopifyValue) (toLowerCase mv)
                     then JNum 1 else JNum (7 # 10))
      | Some opts =>
          match List.find (option_matches mv) opts with
          | Some opt =>
              mkVR true (getStringSimilarity (toLowerCase shopifyValue)
                                             (toLowerCase (opt_label opt)))
          | None => mkVR false (JNum 0)
          end
      end
  end.

Inductive vstate := Valid | Warning | Error.

Definition getValidationState (v : ValidationResult) : vstate :=
  if negb (isValid v) then Error
  else if js_ge (similarity v) (JNum (8 # 10)) then Valid
  else Warning.

(** The classification shown for one mapping, as the render of
    AttributeMapping computes it once the field is touched. *)
Definition classify (shopifyValue : string) (mappedValue : mval)
    (options : option (list attr_option)) : vstate :=
  getValidationState (validateAttributeMapping shopifyValue mappedValue options).

Example sim_ex1 : getStringSimilarity "kitten" "sitting" = JNum (1 - (3 # 7)).
Proof. reflexivity. Qed.
Example sim_ex2 : getStringSimilarity "" "" = JNaN.
Proof. reflexivity. Qed.
Example sim_ex3 : getStringSimilarity "a" "" = JNum (1 - (1 # 1)).
Proof. reflexivity. Qed.
Example classify_ex1 : classify "abc" (MStr "xyz") None = Warning.
Proof. reflexivity. Qed.
Example trim_ex : trim "  ab c " = "ab c".
Proof. reflexivity. Qed.

(* ------------------------------------------------------------------ *)
(** ** Magento attribute metadata and the attribute matcher *)

Record MagentoAttributeMetadata := mkAttr {
  attribute_code : string;
  frontend_input : string;
  default_frontend_label : string;
  options : option (list attr_option)
}.

Record match_result := mkMatch { attributeCode : string; optionValue : string }.

(** [findBestMatchingOptionValue] (identical in both components). *)
Definition findBestMatchingOptionValue (shopifyValue : string)
    (opts : option (list attr_option)) : string :=
  match opts with
  | None => ""
  | Some os =>
      if negb (str_truthy shopifyValue) then "" else
      let '(best, highest) :=
        List.fold_left
          (fun '(best, highest) option =>
             let sim := getStringSimilarity (toLowerCase shopifyValue)
                                            (toLowerCase (opt_label option)) in
             if js_gt sim highest then (opt_value option, sim) else (best, highest))
          os ("", JNum 0) in
      if js_gt highest (JNum (6 # 10)) then best else ""
  end.

(** [s.toLowerCase().replace(/[^a-z0-9]/g, '')]. *)
Definition is_alnum_lower (c : ascii) : bool :=
  let n := nat_of_ascii c in
  ((Nat.leb 97 n) && (Nat.leb n 122)) || ((Nat.leb 48 n) && (Nat.leb n 57)).

Fixpoint keep_alnum (s : string) : string :=
  match s with
  | EmptyString => EmptyString
  | String c s' => if is_alnum_lower c then String c (keep_alnum s') else keep_alnum s'
  end.

Definition normalize (s : string) : string := keep_alnum (toLowerCase s).

(** The [directMappings] object literal of AttributeMapping.tsx.  Property
    names inherited from [Object.prototype] (e.g. [constructor]) give a
    truthy non-string value there, which no [attribute_code] equals, so the
    code then falls through to the fuzzy scoring exactly as for [None]. *)
Definition directMappings : list (string * string) :=
  [("title", "name"); ("description", "description"); ("vendor", "manufacturer");
   ("productType", "product_type"); ("color", "color"); ("size", "size");
   ("material", "material"); ("weight", "weight"); ("brand", "brand");
   ("sku", "sku"); ("price", "price"); ("Unit Per Pack", "unit_per_pack");
   ("E-liquid flavor", "flavor"); ("Flavor", "flavor"); ("Resistance", "resistance")].

Definition assoc_lookup (tbl : list (string * string)) (k : string) : option string :=
  match List.find (fun '(k', _) => str_eqb k' k) tbl with
  | Some (_, v) => Some v
  | None => None
  end.

Definition find_attr (code : string) (attributes : list MagentoAttributeMetadata)
    : option MagentoAttributeMetadata :=
  List.find (fun a => str_eqb (attribute_code a) code) attributes.

(** The total score of one attribute in the fuzzy loop. *)
Definition attr_score (shopifyAttr shopifyValue : string)
    (attr : MagentoAttributeMetadata) : jsnum :=
  let normalizedAttr := normalize shopifyAttr in
  let nameSimilarity := getStringSimilarity normalizedAttr (normalize (attribute_code attr)) in
  let labelSimilarity :=
    if str_truthy (default_frontend_label attr)
    then getStringSimilarity normalizedAttr (normalize (default_frontend_label attr))
    else JNum 0 in
  let sim := js_max nameSimilarity labelSimilarity in
  let optionBonus :=
    match options attr with
    | Some os =>
        if str_truthy shopifyValue then
          if List.existsb (fun opt =>
               js_gt (getStringSimilarity (toLowerCase (opt_label opt))
                                          (toLowerCase shopifyValue)) (JNum (8 # 10))) os
          then JNum (3 # 10) else JNum 0
        else JNum 0
    | None => JNum 0
    end in
  js_add sim optionBonus.

(** The [attributes.forEach] loop: (bestMatch, bestMatchOptions, highestSimilarity). *)
Definition fuzzy_step (shopifyAttr shopifyValue : string)
    (st : string * option (list attr_option) * jsnum)
    (attr : MagentoAttributeMetadata) : string * option (list attr_option) * jsnum :=
  let '(bm, bo, hi) := st in
  let total := attr_score shopifyAttr shopifyValue attr in
  if js_gt total hi then (attribute_code attr, options attr, total) else (bm, bo, hi).

Definition fuzzy_loop (shopifyAttr shopifyValue : string)
    (attributes : list MagentoAttributeMetadata) : string * option (list attr_option) * jsnum :=
  List.fold_left (fuzzy_step shopifyAttr shopifyValue) attributes ("", None, JNum 0).

(** [findBestMatchingAttribute] of AttributeMapping.tsx. *)
Definition findBestMatchingAttribute (shopifyAttr shopifyValue : string)
    (attributes : list MagentoAttributeMetadata) : match_result :=
  let direct :=
    match assoc_lookup directMappings shopifyAttr with
    | Some target =>
        match find_attr target attributes with
        | Some dm =>
            Some (mkMatch (attribute_code dm)
                          (findBestMatchingOptionValue shopifyValue (options dm)))
        | None => None
        end
    | None => None
    end in
  match direct with
  | Some r => r
  | None =>
      let '(bestMatch, bestMatchOptions, highestSimilarity) :=
        fuzzy_loop shopifyAttr shopifyValue attributes in
      if js_gt highestSimilarity (JNum (4 # 10))
      then mkMatch bestMatch (findBestMatchingOptionValue shopifyValue bestMatchOptions)
      else mkMatch "" ""
  end.

(** The [directMappings] of MultiVariantMapping.tsx. *)
Definition directMappings_mv : list (string * string) :=
  [("vendor", "manufacturer"); ("vendorBrand", "brand"); ("productType", "product_type")].

(** [findBestMatchingAttribute] of MultiVariantMapping.tsx (no fuzzy
    fallback; the value falls back to the source value). *)
Definition findBestMatchingAttribute_mv (shopifyAttr shopifyValue : string)
    (attributes : list MagentoAttributeMetadata) : match_result :=
  match assoc_lookup directMappings_mv shopifyAttr with
  | Some target =>
      match find_attr target attributes with
      | Some dm =>
          let ov := findBestMatchingOptionValue shopifyValue (options dm) in
          mkMatch (attribute_code dm) (if str_truthy ov then ov else shopifyValue)
      | None => mkMatch "" ""
      end
  | None => mkMatch "" ""
  end.

(* ------------------------------------------------------------------ *)
(** ** findBestMatchingCategory (both components) *)

Definition is_sep (c : ascii) : bool := is_space c || Ascii.eqb c "/"%char.

(** [s.split(/[\s/]+/)]: a maximal run of separators splits once; a
    leading or trailing run yields an empty token; [""] gives [[""]]. *)
Fixpoint split_go (s : string) (cur : string) (in_run : bool) : list string :=
  match s with
  | EmptyString => [cur]
  | String c s' =>
      if is_sep c then
        if in_run then split_go s' cur true else cur :: split_go s' "" true
      else split_go s' (cur ++ String c EmptyString) false
  end.

Definition split_parts (s : string) : list string := split_go s "" false.

(** [a.includes(b)]. *)
Definition includes (a b : string) : bool :=
  match String.index 0 b a with Some _ => true | None => false end.

Record CategoryOption := mkCat { cat_label : string; cat_value : string }.

Record cat_match := mkCM { cm_value : string; cm_similarity : Q }.

Definition overlap (productTypeParts categoryParts : list string) : nat :=
  List.length (List.filter (fun part =>
    List.existsb (fun catPart => includes catPart part || includes part catPart)
      categoryParts) productTypeParts).

(** The score of one category against the product type. *)
Definition category_score (productType : string) (category : CategoryOption) : Q :=
  let productTypeParts := split_parts (toLowerCase productType) in
  let categoryParts := split_parts (toLowerCase (cat_label category)) in
  Z.of_nat (overlap productTypeParts categoryParts)
    # Pos.of_nat (Nat.max (List.length productTypeParts) (List.length categoryParts)).

Definition collect_matches (productType : string) (categories : list CategoryOption)
    : list cat_match :=
  let productTypeParts := split_parts (toLowerCase productType) in
  List.flat_map (fun category =>
    let categoryParts := split_parts (toLowerCase (cat_label category)) in
    if Nat.ltb 0 (overlap productTypeParts categoryParts)
    then [mkCM (cat_value category) (category_score productType category)]
    else []) categories.

(** [Array.prototype.sort] with comparator [(a, b) => b.similarity -
    a.similarity]: stable (ES2019), so it equals this insertion sort. *)
Fixpoint insert_desc (x : cat_match) (l : list cat_match) : list cat_match :=
  match l with
  | [] => [x]
  | y :: l' =>
      if Qle_bool (cm_similarity x) (cm_similarity y) then y :: insert_desc x l'
      else x :: l
  end.

Definition sort_desc (l : list cat_match) : list cat_match :=
  List.fold_left (fun acc x => insert_desc x acc) l [].

Definition findBestMatchingCategory (productType : string)
    (categories : list CategoryOption) : list string :=
  List.map cm_value
    (List.filter (fun m => negb (Qle_bool (cm_similarity m) (3 # 10)))
       (sort_desc (collect_matches productType categories))).

Example split_ex : split_parts "vaping / kits" = ["vaping"; "kits"].
Proof. reflexivity. Qed.
Example cat_ex :
  findBestMatchingCategory "Vape Kits"
    [mkCat "Accessories" "1"; mkCat "Vaping / Kits" "2"; mkCat "Kits" "3"; mkCat "Vape Kits" "4"] = ["4"; "2"; "3"].
Proof. reflexivity. Qed.

(* ------------------------------------------------------------------ *)
(** ** MappingSets and product-level edits (MultiVariantMapping.tsx, App) *)

(** One entry of [AttributeMappingType].  The fields are optional because
    the code spreads possibly undefined entries ([{ ...undefined }] is [{}]). *)
Record entry := mkEntry {
  e_value : option string;
  e_mappedTo : option string;
  e_mappedValue : option mval
}.

Abbreviation AttributeMappingType := (gmap string entry).

Record ShopifyProduct := mkProduct {
  p_title : string;
  p_description : string;
  p_vendor : string;
  p_productType : string
}.

Record ShopifyVariant := mkVariant { v_sku : string; v_title : string }.

Record VariantMapping := mkVM {
  vm_variant : ShopifyVariant;
  vm_mappings : AttributeMappingType
}.

(** [{ ...m }] and [{ ...m, value: v }]. *)
Definition spread (m : option entry) : entry :=
  mkEntry (m ≫= e_value) (m ≫= e_mappedTo) (m ≫= e_mappedValue).

Definition spread_value (m : option entry) (v : string) : entry :=
  mkEntry (Some v) (m ≫= e_mappedTo) (m ≫= e_mappedValue).

Definition special_keys : list string :=
  ["manufacturer"; "brand"; "description"; "category_ids";
   "meta_title"; "meta_keyword"; "meta_description"].

(** The [updatedMapping] object literal built in [updateAllVariants]. *)
Definition updatedMapping (product : ShopifyProduct)
    (newProductAttributes currentMapping : AttributeMappingType) : AttributeMappingType :=
  <["meta_description" := spread (newProductAttributes !! "meta_description")]>
  (<["meta_keyword" := spread (newProductAttributes !! "meta_keyword")]>
  (<["meta_title" := spread (newProductAttributes !! "meta_title")]>
  (<["category_ids" := spread_value (newProductAttributes !! "category_ids") (p_productType product)]>
  (<["description" := spread_value (newProductAttributes !! "description") (p_description product)]>
  (<["brand" := spread_value (newProductAttributes !! "brand") (p_vendor product)]>
  (<["manufacturer" := spread_value (newProductAttributes !! "manufacturer") (p_vendor product)]>
   currentMapping)))))).

(** The [onUpdateMapping(i, updatedMapping)] calls of [updateAllVariants],
    in loop order; [props] is the [variantMappings] prop of the render. *)
Fixpoint updateAllVariants_from (product : ShopifyProduct)
    (newProductAttributes : AttributeMappingType) (i : nat)
    (props : list VariantMapping) : list (nat * AttributeMappingType) :=
  match props with
  | [] => []
  | vm :: props' =>
      (i, updatedMapping product newProductAttributes (vm_mappings vm))
        :: updateAllVariants_from product newProductAttributes (S i) props'
  end.

Definition updateAllVariants (product : ShopifyProduct)
    (newProductAttributes : AttributeMappingType) (props : list VariantMapping)
    : list (nat * AttributeMappingType) :=
  updateAllVariants_from product newProductAttributes 0 props.

(** [handleUpdateVariantMapping] of App, as the functional update React
    applies to the current state.  Reading [.mappings] of a missing index
    throws a TypeError ([None]). *)
Definition handleUpdateVariantMapping (call : nat * AttributeMappingType)
    (st : list VariantMapping) : option (list VariantMapping) :=
  let '(index, mappings) := call in
  match st !! index with
  | Some vm => Some (<[index := mkVM (vm_variant vm) (mappings ∪ vm_mappings vm)]> st)
  | None => None
  end.

(** The queued updates, applied in order. *)
Fixpoint apply_updates (calls : list (nat * AttributeMappingType))
    (st : list VariantMapping) : option (list VariantMapping) :=
  match calls with
  | [] => Some st
  | c :: calls' => handleUpdateVariantMapping c st ≫= apply_updates calls'
  end.

(** [handleProductAttributeChange]: the new product-level MappingSet. *)
Definition handleProductAttributeChange (product : ShopifyProduct)
    (productAttributes : AttributeMappingType) (attributeName magentoAttr : string)
    : AttributeMappingType :=
  let currentValue :=
    if str_eqb attributeName "vendor" then p_vendor product
    else if str_eqb attributeName "description" then p_description product
    else if str_eqb attributeName "category_ids" then p_productType product
    else match productAttributes !! attributeName ≫= e_value with
         | Some v => if str_truthy v then v else ""
         | None => ""
         end in
  let newMapping := mkEntry (Some currentValue) (Some magentoAttr) (Some (MStr currentValue)) in
  let newAttributes := <[attributeName := newMapping]> productAttributes in
  if str_eqb attributeName "vendor"
  then <["brand" := mkEntry (Some (p_vendor product)) (Some "brand") (Some (MStr currentValue))]>
         newAttributes
  else newAttributes.

(** [handleProductValueChange]: the new product-level MappingSet. *)
Definition handleProductValueChange (productAttributes : AttributeMappingType)
    (attributeName : string) (newValue : mval) (newLabelValue : string)
    : AttributeMappingType :=
  let newMapping := mkEntry (Some newLabelValue)
                      (productAttributes !! attributeName ≫= e_mappedTo) (Some newValue) in
  let newAttributes := <[attributeName := newMapping]> productAttributes in
  if str_eqb attributeName "vendor"
  then <["brand" := mkEntry (Some newLabelValue)
                     (productAttributes !! "brand" ≫= e_mappedTo) (Some newValue)]>
         newAttributes
  else newAttributes.

Inductive product_edit :=
| EditAttribute (attributeName magentoAttr : string)
| EditValue (attributeName : string) (newValue : mval) (newLabelValue : string).

(** One product-level edit: the new product-level MappingSet and the
    variant store after the queued [onUpdateMapping] calls.  [props] is
    the [variantMappings] prop the handler closes over, [st] the state. *)
Definition apply_product_edit (product : ShopifyProduct)
    (productAttributes : AttributeMappingType) (e : product_edit)
    (props st : list VariantMapping) : AttributeMappingType * option (list VariantMapping) :=
  let newAttributes :=
    match e with
    | EditAttribute n m => handleProductAttributeChange product productAttributes n m
    | EditValue n v l => handleProductValueChange productAttributes n v l
    end in
  (newAttributes, apply_updates (updateAllVariants product newAttributes props) st).

(* ------------------------------------------------------------------ *)
(** ** Existing child SKUs and the visible variant list *)

(** What [fetch('/get-configurable-variants?sku=...')] can come back with. *)
Inductive variants_response :=
| VNetworkError (msg : string)          (** [fetch] rejects *)
| VNotOk                                (** [!response.ok] *)
| VBadJson (msg : string)               (** [response.json()] rejects *)
| VOk (childSkus : option (list string)). (** [data.childSkus], maybe undefined *)

(** [getExistingVariants]: [None] is [undefined]. *)
Definition getExistingVariants (r : variants_response) : option (list string) :=
  match r with
  | VNetworkError _ | VNotOk | VBadJson _ => Some []
  | VOk childSkus => childSkus
  end.

(** The effect on [configurableSku, isNewConfigurable]: the new
    [existingVariantSkus]. *)
Definition existingVariantSkus_effect (configurableSku : option string)
    (isNewConfigurable : bool) (r : variants_response) : option (list string) :=
  match configurableSku with
  | Some sku => if str_truthy sku && negb isNewConfigurable
                then getExistingVariants r else Some []
  | None => Some []
  end.

Definition str_includes (l : list string) (s : string) : bool :=
  List.existsb (fun x => str_eqb x s) l.

(** The filtering effect; [includes] on [undefined] throws ([None]). *)
Definition filteredVariantMappings (existingVariantSkus : option (list string))
    (variantMappings : list VariantMapping) : option (list VariantMapping) :=
  match existingVariantSkus with
  | Some ex => Some (List.filter (fun m => negb (str_includes ex (v_sku (vm_variant m))))
                       variantMappings)
  | None => match variantMappings with [] => Some [] | _ => None end
  end.

(* ------------------------------------------------------------------ *)
(** ** handleSaveMapping (App): sequential submit *)

Inductive json_body :=
| JsonObj (error : option string)   (** a JSON object and its [error] field *)
| NotJson (parse_error : string).

Inductive fetch_outcome :=
| FOk
| FNotOk (body : json_body)
| FReject (msg : string).

Inductive request :=
| CreateConfigurable (configurableSku : string) (attrCodes : list string)
| ImportVariant (variant : ShopifyVariant) (configurableSku : string).

(** Calls issued so far, and an exception or a value. *)
Definition M (A : Type) : Type := list request -> list request * (string + A).

Definition ret {A} (a : A) : M A := fun log => (log, inr a).
Definition throw {A} (msg : string) : M A := fun log => (log, inl msg).
Definition bind {A B} (m : M A) (k : A -> M B) : M B :=
  fun log => match m log with
             | (log', inl e) => (log', inl e)
             | (log', inr a) => k a log'
             end.

Notation "'let!' x ':=' m 'in' k" := (bind m (fun x => k))
  (at level 200, x name, m at level 100, k at level 200).

(** [await fetch(...)]: the outcome of the n-th call is [net n]. *)
Definition fetch (net : nat -> fetch_outcome) (r : request) : M fetch_outcome :=
  fun log => (app log [r], inr (net (List.length log))).

(** [`${x}`] of a possibly undefined string. *)
Definition show_opt (s : option string) : string :=
  match s with Some x => x | None => "undefined" end.

Fixpoint import_variants (net : nat -> fetch_outcome) (configurableSku : string)
    (vs : list VariantMapping) : M unit :=
  match vs with
  | [] => ret tt
  | vm :: vs' =>
      let! r := fetch net (ImportVariant (vm_variant vm) configurableSku) in
      match r with
      | FOk => import_variants net configurableSku vs'
      | FNotOk (JsonObj err) =>
          throw ("Failed to import variant " ++ v_title (vm_variant vm) ++ ": " ++ show_opt err)
      | FNotOk (NotJson msg) => throw msg
      | FReject msg => throw msg
      end
  end.

Definition non_configurable_codes : list string :=
  ["manufacturer"; "brand"; "description"; "name"; "url_key"; "price"; "status";
   "visibility"; "category_ids"; "tax_class_id"; "meta_keyword"; "meta_title";
   "meta_description"].

Definition mval_truthy (v : option mval) : bool :=
  match v with Some (MStr s) => str_truthy s | Some (MArr _) => true | None => false end.

(** The keys of [configurableAttributes], in insertion order (entries of
    one MappingSet are visited in the map's order). *)
Definition configurable_codes (filtered : list VariantMapping) : list string :=
  List.fold_left (fun acc vm =>
    List.fold_left (fun acc '(_, attr) =>
      match e_mappedTo attr with
      | Some code =>
          if str_truthy code && mval_truthy (e_mappedValue attr)
             && negb (str_includes non_configurable_codes code)
             && negb (str_includes acc code)
          then app acc [code] else acc
      | None => acc
      end) (map_to_list (vm_mappings vm)) acc) filtered [].

Fixpoint check_attributes (codes : list string)
    (attributes : list MagentoAttributeMetadata) : M unit :=
  match codes with
  | [] => ret tt
  | c :: cs =>
      match find_attr c attributes with
      | Some _ => check_attributes cs attributes
      | None => throw ("Attribute " ++ c ++ " not found")
      end
  end.

Definition create_configurable (net : nat -> fetch_outcome) (configurableSku : string)
    (attributes : list MagentoAttributeMetadata) (filtered : list VariantMapping) : M unit :=
  let codes := configurable_codes filtered in
  let! _ := check_attributes codes attributes in
  match codes with
  | [] => throw "No configurable attributes found"
  | _ =>
      let! r := fetch net (CreateConfigurable configurableSku codes) in
      match r with
      | FOk => ret tt
      | FNotOk (JsonObj err) =>
          throw (match err with
                 | Some e => if str_truthy e then e else "Failed to create configurable product"
                 | None => "Failed to create configurable product"
                 end)
      | FNotOk (NotJson msg) => throw msg
      | FReject msg => throw msg
      end
  end.

Definition save_body (net : nat -> fetch_outcome) (configurableSku : string)
    (isNewConfigurable : bool) (existingVariantSkus : list string)
    (attributes : list MagentoAttributeMetadata) (variantMappings : list VariantMapping)
    : M unit :=
  let filtered := List.filter (fun m => negb (str_includes existingVariantSkus
                                                (v_sku (vm_variant m)))) variantMappings in
  match filtered with
  | [] => throw "No new variants to import"
  | _ =>
      let! _ := (if isNewConfigurable
                 then create_configurable net configurableSku attributes filtered
                 else ret tt) in
      import_variants net configurableSku filtered
  end.

(** [handleSaveMapping] with a selected product: the calls issued and the
    final [importStatus]. *)
Definition handleSaveMapping (net : nat -> fetch_outcome) (configurableSku : string)
    (isNewConfigurable : bool) (existingVariantSkus : list string)
    (attributes : list MagentoAttributeMetadata) (variantMappings : list VariantMapping)
    : list request * string :=
  match save_body net configurableSku isNewConfigurable existingVariantSkus
          attributes variantMappings [] with
  | (calls, inl msg) => (calls, "Import failed: " ++ msg)
  | (calls, inr _) => (calls, "Import successful!")
  end.

(* ------------------------------------------------------------------ *)
(** ** import-to-shopify-batch.ts *)

Record ShopifyStoreConfig := mkStore { s_id : string; s_name : string; s_storeUrl : string }.

(** What the GraphQL call of one store can come back with. *)
Inductive store_response :=
| SReject (msg : string)                    (** [fetch] rejects *)
| SNotOk (statusText : string)
| SBadJson (msg : string)                   (** [response.json()] rejects *)
| SJson (userErrors : list string) (productId : option string).

Record ImportResult := mkResult {
  storeId : string;
  storeName : string;
  success : bool;
  error : option string;
  productId : option string
}.

Definition cannot_read := "Cannot read properties of undefined".

(** [importToStore]: every exception of the [try] block is caught.
    [nvariants] is [product.variants.length] ([variants[0]] is read). *)
Definition importToStore (nvariants : nat) (store : ShopifyStoreConfig)
    (resp : store_response) : ImportResult :=
  let fail msg := mkResult (s_id store) (s_name store) false (Some msg) None in
  if Nat.eqb nvariants 0 then fail cannot_read else
  match resp with
  | SReject msg => fail msg
  | SNotOk st => fail ("HTTP error: " ++ st)
  | SBadJson msg => fail msg
  | SJson (e :: _) _ => fail e
  | SJson [] None => fail cannot_read
  | SJson [] (Some pid) => mkResult (s_id store) (s_name store) true None (Some pid)
  end.

Record Summary := mkSummary { total : nat; successful : nat; failed : nat }.

Inductive batch_response :=
| BatchOk (results : list ImportResult) (summary : Summary)
| BatchError (msg : string).

Definition selectedStores (stores : list ShopifyStoreConfig) (targetStoreIds : list string)
    (tokens : list (string * string)) : list ShopifyStoreConfig :=
  List.filter (fun store =>
    str_includes targetStoreIds (s_id store)
    && match assoc_lookup tokens (s_id store) with
       | Some t => str_truthy t
       | None => false
       end) stores.

(** [onRequestPost] after the request and the environment are parsed;
    [net store] is the response of that store's own call. *)
Definition onRequestPost (nvariants : nat) (stores : list ShopifyStoreConfig)
    (targetStoreIds : list string) (tokens : list (string * string))
    (net : ShopifyStoreConfig -> store_response) : batch_response :=
  match selectedStores stores targetStoreIds tokens with
  | [] => BatchError "No valid stores selected for import"
  | sel =>
      let results := (fun store => importToStore nvariants store (net store)) <$> sel in
      let succ := List.filter success results in
      let fail := List.filter (fun r => negb (success r)) results in
      BatchOk results (mkSummary (List.length results) (List.length succ) (List.length fail))
  end.

(* ================================================================== *)
(** * Properties *)

(** ** Helper lemmas on the string model *)

Lemma lower_char_idem (c : ascii) : lower_char (lower_char c) = lower_char c.
Proof. destruct c as [[] [] [] [] [] [] [] []]; vm_compute; reflexivity. Qed.

Lemma toLowerCase_idem (s : string) : toLowerCase (toLowerCase s) = toLowerCase s.
Proof. induction s as [|c s IH]; simpl; [reflexivity|]. by rewrite lower_char_idem, IH. Qed.

Lemma toLowerCase_length (s : string) :
  List.length (list_ascii_of_string (toLowerCase s)) = String.length s.
Proof. induction s as [|c s IH]; simpl; [reflexivity|]. by rewrite IH. Qed.

Lemma getStringSimilarity_lower (a b : string) :
  getStringSimilarity (toLowerCase a) (toLowerCase b) = getStringSimilarity a b.
Proof. unfold getStringSimilarity. by rewrite !toLowerCase_idem. Qed.

(** [js_eqq x q]: [x] is the number [q]. *)
Definition js_eqq (x : jsnum) (q : Q) : bool :=
  match x with JNum y => Qeq_bool y q | JNaN => false end.

Lemma rows_nil_left (s : list ascii) (j k : nat) :
  rows [] s (S j) [k] = [match s with [] => k | _ => j + List.length s end].
Proof.
  revert j k. induction s as [|c s IH]; intros j k; simpl; [reflexivity|].
  rewrite IH. f_equal. destruct s; simpl; lia.
Qed.

Lemma levenshtein_nil_right (s : list ascii) : levenshtein s [] = List.length s.
Proof.
  unfold levenshtein. simpl. rewrite Nat.add_1_r, List.seq_S, List.last_last.
  reflexivity.
Qed.

Lemma levenshtein_nil_left (s : list ascii) (Hs : s <> []) : levenshtein [] s = List.length s.
Proof.
  unfold levenshtein. simpl. change 1 with (S 0). rewrite rows_nil_left.
  destruct s; [congruence|]. reflexivity.
Qed.

Lemma one_minus_nn (n : nat) (Hn : n <> 0) :
  Qeq_bool (1 - (Z.of_nat n # Pos.of_nat n)) 0 = true.
Proof.
  apply Qeq_bool_iff. destruct n as [|m]; [congruence|].
  assert (E : (Z.of_nat (S m) # Pos.of_nat (S m)) == 1).
  { unfold Qeq; simpl. rewrite <- Pos.of_nat_succ, Zpos_P_of_succ_nat. lia. }
  rewrite E. reflexivity.
Qed.

(* ------------------------------------------------------------------ *)
(** ** C1 *)

(** Counterexample to C1: a free-text mapping (no options list) whose
    non-empty mapped value differs from the source value is classified
    [Warning], not [Valid]. *)
Lemma C1_free_text_not_always_valid :
  ~ (forall sourceValue mappedValue, mappedValue <> "" ->
       classify sourceValue (MStr mappedValue) None = Valid).
Proof.
  intros H. specialize (H "abc" "xyz" ltac:(discriminate)).
  vm_compute in H. discriminate.
Qed.

(** C1 (amended): for a free-text mapping (no options list) with a string
    mapped value, [classify] is [Error] when the mapped value is empty or
    whitespace only, [Valid] when it equals the source value
    case-insensitively, and [Warning] otherwise. *)
Theorem C1_free_text_classification (sourceValue mappedValue : string) :
  classify sourceValue (MStr mappedValue) None =
  if negb (str_truthy (trim mappedValue)) then Error
  else if str_eqb (toLowerCase sourceValue) (toLowerCase mappedValue) then Valid
  else Warning.
Proof.
  unfold classify, validateAttributeMapping.
  destruct mappedValue as [|c s]; [reflexivity|]. simpl negb at 1. rewrite orb_false_l.
  destruct (negb (str_truthy (trim (String c s)))); [reflexivity|].
  destruct (str_eqb _ _); reflexivity.
Qed.

(* ------------------------------------------------------------------ *)
(** ** C2 *)

(** C2 (code defect): two empty strings give [1 - 0/0], i.e. NaN, not 1;
    with exactly one empty string the similarity is 0 as stated. *)
Theorem C2_similarity_empty_strings :
  getStringSimilarity "" "" = JNaN /\
  (forall a : string, a <> "" ->
     js_eqq (getStringSimilarity a "") 0 = true /\
     js_eqq (getStringSimilarity "" a) 0 = true).
Proof.
  split; [reflexivity|]. intros a Ha.
  assert (Hl : String.length a <> 0) by (destruct a; simpl; [congruence|lia]).
  unfold getStringSimilarity. simpl toLowerCase. simpl list_ascii_of_string.
  rewrite toLowerCase_length. simpl List.length.
  rewrite levenshtein_nil_right, toLowerCase_length.
  rewrite levenshtein_nil_left
    by (intros E; apply (f_equal (@List.length ascii)) in E;
        rewrite toLowerCase_length in E; simpl in E; congruence).
  rewrite toLowerCase_length, Nat.max_0_r, Nat.max_0_l.
  unfold js_div_nat. apply Nat.eqb_neq in Hl as Hb. rewrite Hb. simpl.
  rewrite one_minus_nn by exact Hl. split; reflexivity.
Qed.

(* ------------------------------------------------------------------ *)
(** ** C5 *)

Lemma find_attr_exists (code : string) (attributes : list MagentoAttributeMetadata) :
  (exists a, In a attributes /\ attribute_code a = code) ->
  exists dm, find_attr code attributes = Some dm /\ attribute_code dm = code.
Proof.
  intros [a [Hin Hc]]. unfold find_attr.
  induction attributes as [|b l IH]; [destruct Hin|]. simpl.
  destruct (str_eqb (attribute_code b) code) eqn:E.
  - exists b. split; [reflexivity|]. by apply String.eqb_eq.
  - destruct Hin as [<-|Hin]; [|by apply IH].
    subst code. unfold str_eqb in E. by rewrite String.eqb_refl in E.
Qed.

(** C5: whenever the catalog has an attribute with code [manufacturer],
    [findBestMatchingAttribute "vendor" value catalog] selects
    [manufacturer] (in both components), whatever the other attributes
    and their fuzzy scores are. *)
Theorem C5_vendor_maps_to_manufacturer (value : string)
    (catalog : list MagentoAttributeMetadata)
    (Hman : exists a, In a catalog /\ attribute_code a = "manufacturer") :
  attributeCode (findBestMatchingAttribute "vendor" value catalog) = "manufacturer" /\
  attributeCode (findBestMatchingAttribute_mv "vendor" value catalog) = "manufacturer".
Proof.
  destruct (find_attr_exists _ _ Hman) as [dm [Hf Hc]].
  unfold findBestMatchingAttribute, findBestMatchingAttribute_mv.
  change (assoc_lookup directMappings "vendor") with (Some "manufacturer").
  change (assoc_lookup directMappings_mv "vendor") with (Some "manufacturer").
  cbv beta iota. rewrite Hf. split; exact Hc.
Qed.

Lemma C5_vendor_maps_to_manufacturer_witness :
  (exists a, In a [mkAttr "name" "text" "Vendor" None;
                   mkAttr "manufacturer" "select" "Manufacturer" None]
             /\ attribute_code a = "manufacturer") /\
  attributeCode (findBestMatchingAttribute "vendor" "Acme"
     [mkAttr "name" "text" "Vendor" None;
      mkAttr "manufacturer" "select" "Manufacturer" None]) = "manufacturer".
Proof.
  assert (H : exists a, In a [mkAttr "name" "text" "Vendor" None;
                              mkAttr "manufacturer" "select" "Manufacturer" None]
                        /\ attribute_code a = "manufacturer").
  { eexists. split; [right; left; reflexivity|reflexivity]. }
  split; [exact H|].
  exact (proj1 (C5_vendor_maps_to_manufacturer "Acme" _ H)).
Defined.

(* ------------------------------------------------------------------ *)
(** ** C6 *)

Lemma fuzzy_loop_low (shopifyAttr shopifyValue : string)
    (attributes : list MagentoAttributeMetadata)
    (st : string * option (list attr_option) * jsnum) :
  js_gt st.2 (JNum (4 # 10)) = false ->
  (forall a, In a attributes -> js_gt (attr_score shopifyAttr shopifyValue a) (JNum (4 # 10)) = false) ->
  js_gt (List.fold_left (fuzzy_step shopifyAttr shopifyValue) attributes st).2 (JNum (4 # 10)) = false.
Proof.
  revert st. induction attributes as [|a l IH]; intros [[bm bo] hi] Hst Hall; simpl; [exact Hst|].
  apply IH; [|intros b Hb; apply Hall; by right].
  unfold fuzzy_step. destruct (js_gt _ hi); simpl; [apply Hall; by left|exact Hst].
Qed.

(** C6: if the source name has no entry in [directMappings] and no
    attribute's total fuzzy score (max of the similarities against the
    normalized code and label, plus the 0.3 option bonus) is above 0.4,
    the result is [{attributeCode: "", optionValue: ""}]. *)
Theorem C6_low_score_no_match (shopifyAttr shopifyValue : string)
    (catalog : list MagentoAttributeMetadata)
    (Hnodirect : assoc_lookup directMappings shopifyAttr = None)
    (Hlow : forall a, In a catalog ->
              js_gt (attr_score shopifyAttr shopifyValue a) (JNum (4 # 10)) = false) :
  findBestMatchingAttribute shopifyAttr shopifyValue catalog = mkMatch "" "".
Proof.
  unfold findBestMatchingAttribute. rewrite Hnodirect.
  pose proof (fuzzy_loop_low shopifyAttr shopifyValue catalog ("", None, JNum 0)
                eq_refl Hlow) as H.
  unfold fuzzy_loop. destruct (List.fold_left _ _ _) as [[bm bo] hi].
  simpl in H. by rewrite H.
Qed.

Lemma C6_low_score_no_match_witness :
  assoc_lookup directMappings "zzzz" = None /\
  findBestMatchingAttribute "zzzz" "" [mkAttr "color" "select" "Color" None] = mkMatch "" "".
Proof.
  split; [reflexivity|].
  apply C6_low_score_no_match; [reflexivity|].
  intros a [<-|[]]. vm_compute. reflexivity.
Defined.

(* ------------------------------------------------------------------ *)
(** ** C8 *)

(** Counterexample to C8: the mapped value [" "] is non-empty and equals
    the value of an option, whose label has similarity 1 to the source
    value, yet it is classified [Error] (whitespace-only values are
    treated as empty). *)
Lemma C8_whitespace_value_error :
  let opts := [mkOption " " " "] in
  str_truthy " " = true /\
  List.find (option_matches " ") opts = Some (mkOption " " " ") /\
  js_ge (getStringSimilarity " " " ") (JNum (8 # 10)) = true /\
  classify " " (MStr " ") (Some opts) = Error.
Proof. vm_compute. repeat split. Qed.

(** C8 (amended): for a string mapped value onto an attribute with an
    options list, [classify] is [Error] when the mapped value is empty or
    whitespace only, or when no option has value equal to it or label
    case-insensitively equal to it; otherwise, with [s] the similarity
    between the source value and the first such option's label, [Valid]
    when [s >= 0.8] and [Warning] otherwise (also when [s] is NaN). *)
Theorem C8_select_classification (sourceValue mappedValue : string)
    (opts : list attr_option) :
  classify sourceValue (MStr mappedValue) (Some opts) =
  if negb (str_truthy (trim mappedValue)) then Error
  else match List.find (option_matches mappedValue) opts with
       | None => Error
       | Some opt =>
           if js_ge (getStringSimilarity sourceValue (opt_label opt)) (JNum (8 # 10))
           then Valid else Warning
       end.
Proof.
  unfold classify, validateAttributeMapping.
  destruct mappedValue as [|c s]; [reflexivity|]. simpl negb at 1. rewrite orb_false_l.
  destruct (negb (str_truthy (trim (String c s)))); [reflexivity|].
  destruct (List.find _ _) as [opt|]; [|reflexivity].
  by rewrite getStringSimilarity_lower.
Qed.

(* ------------------------------------------------------------------ *)
(** ** C10 *)

(** C10: when fetching the existing child SKUs fails (network error or
    non-OK response), [getExistingVariants] returns the empty list, the
    exclusion set becomes empty and no variant is filtered out. *)
Theorem C10_fetch_failure_excludes_nothing (configurableSku : option string)
    (isNewConfigurable : bool) (msg : string) (variantMappings : list VariantMapping) :
  getExistingVariants (VNetworkError msg) = Some [] /\
  getExistingVariants VNotOk = Some [] /\
  filteredVariantMappings
    (existingVariantSkus_effect configurableSku isNewConfigurable (VNetworkError msg))
    variantMappings = Some variantMappings /\
  filteredVariantMappings
    (existingVariantSkus_effect configurableSku isNewConfigurable VNotOk)
    variantMappings = Some variantMappings.
Proof.
  assert (Hf : filteredVariantMappings (Some []) variantMappings = Some variantMappings).
  { simpl. f_equal. induction variantMappings as [|m l IH]; simpl; [reflexivity|].
    by rewrite IH. }
  unfold existingVariantSkus_effect.
  destruct configurableSku as [sku|]; [destruct (str_truthy sku && negb isNewConfigurable)|];
    simpl; repeat split; exact Hf.
Qed.

(* ------------------------------------------------------------------ *)
(** ** C3 *)

(** The MappingSet of one variant after the fan-out. *)
Definition fanned_out (product : ShopifyProduct) (newProductAttributes : AttributeMappingType)
    (vm : VariantMapping) : VariantMapping :=
  mkVM (vm_variant vm)
       (updatedMapping product newProductAttributes (vm_mappings vm) ∪ vm_mappings vm).

Lemma apply_updateAllVariants_from (product : ShopifyProduct)
    (A : AttributeMappingType) (ps pre : list VariantMapping) :
  apply_updates (updateAllVariants_from product A (length pre) ps) (pre ++ ps)%list =
  Some (pre ++ (fanned_out product A <$> ps))%list.
Proof.
  revert pre. induction ps as [|vm ps IH]; intros pre; simpl; [reflexivity|].
  rewrite (list_lookup_middle pre ps vm (length pre) eq_refl). simpl.
  rewrite <- (Nat.add_0_r (length pre)), insert_app_r, Nat.add_0_r. simpl.
  replace (S (length pre)) with (length (pre ++ [fanned_out product A vm])%list)
    by (rewrite length_app; simpl; lia).
  replace (pre ++ mkVM (vm_variant vm) _ :: ps)%list
    with ((pre ++ [fanned_out product A vm]) ++ ps)%list
    by (rewrite <- app_assoc; reflexivity).
  rewrite IH, <- app_assoc. reflexivity.
Qed.

Lemma updatedMapping_other (product : ShopifyProduct) (A cur : AttributeMappingType)
    (k : string) (Hk : ~ In k special_keys) :
  updatedMapping product A cur !! k = cur !! k.
Proof.
  simpl in Hk. unfold updatedMapping.
  rewrite !lookup_insert_ne by (intros E; apply Hk; rewrite <- E; tauto). reflexivity.
Qed.

Lemma option_union_idem {B} (o : option B) : o ∪ o = o.
Proof. by destruct o. Qed.

(** C3: a product-level edit ([handleProductAttributeChange] or
    [handleProductValueChange]) followed by [updateAllVariants] and the
    queued [handleUpdateVariantMapping] updates leaves every variant in
    place and, in each variant's MappingSet, keeps every key outside the
    seven special product-level keys exactly as it was; the special keys
    receive the fanned-out product-level entries.  The handler's
    [variantMappings] prop is the current state of the store. *)
Theorem C3_fanout_frame (product : ShopifyProduct)
    (productAttributes : AttributeMappingType) (e : product_edit)
    (st : list VariantMapping) :
  exists st',
    (apply_product_edit product productAttributes e st st).2 = Some st' /\
    length st' = length st /\
    forall i vm, st !! i = Some vm ->
      exists vm', st' !! i = Some vm' /\ vm_variant vm' = vm_variant vm /\
        (forall k, ~ In k special_keys -> vm_mappings vm' !! k = vm_mappings vm !! k) /\
        (forall k, In k special_keys ->
           vm_mappings vm' !! k =
           updatedMapping product (apply_product_edit product productAttributes e st st).1
                          (vm_mappings vm) !! k).
Proof.
  set (A := (apply_product_edit product productAttributes e st st).1).
  assert (E : (apply_product_edit product productAttributes e st st).2 =
              Some (fanned_out product A <$> st)).
  { unfold A, apply_product_edit. simpl. unfold updateAllVariants.
    exact (apply_updateAllVariants_from product _ st []). }
  exists (fanned_out product A <$> st). split; [exact E|]. split; [apply length_fmap|].
  intros i vm Hi. exists (fanned_out product A vm).
  split; [by rewrite list_lookup_fmap, Hi|]. split; [reflexivity|]. split.
  - intros k Hk. simpl. rewrite lookup_union, updatedMapping_other by exact Hk.
    apply option_union_idem.
  - intros k Hk. simpl. rewrite lookup_union.
    simpl in Hk. unfold updatedMapping.
    repeat destruct Hk as [<-|Hk]; try destruct Hk;
      rewrite ?lookup_insert_ne by discriminate; rewrite lookup_insert_eq; by destruct (vm_mappings vm !! _).
Qed.

(* ------------------------------------------------------------------ *)
(** ** C9 *)

(** C9: when [n >= 1] stores are selected, the batch handler answers with
    one result per selected store, in order; the result of each store is
    [importToStore] on that store's own response only (a failing store
    cannot abort or change another store's result); and the summary has
    [total = n] and [successful + failed = total]. *)
Theorem C9_batch_results_independent (nvariants : nat)
    (stores : list ShopifyStoreConfig) (targetStoreIds : list string)
    (tokens : list (string * string)) (net : ShopifyStoreConfig -> store_response)
    (Hsel : selectedStores stores targetStoreIds tokens <> []) :
  exists results summary,
    onRequestPost nvariants stores targetStoreIds tokens net = BatchOk results summary /\
    length results = length (selectedStores stores targetStoreIds tokens) /\
    (forall i store, selectedStores stores targetStoreIds tokens !! i = Some store ->
       results !! i = Some (importToStore nvariants store (net store)) /\
       storeId (importToStore nvariants store (net store)) = s_id store) /\
    total summary = length (selectedStores stores targetStoreIds tokens) /\
    successful summary + failed summary = total summary.
Proof.
  unfold onRequestPost.
  destruct (selectedStores stores targetStoreIds tokens) as [|s0 sel0] eqn:Esel;
    [congruence|].
  set (sel := s0 :: sel0).
  set (f := fun store => importToStore nvariants store (net store)).
  eexists (f <$> sel), _. split; [reflexivity|].
  split; [exact (length_fmap f sel)|]. split.
  - intros i store Hi. rewrite list_lookup_fmap, Hi. split; [reflexivity|].
    unfold importToStore. destruct (Nat.eqb nvariants 0); [reflexivity|].
    destruct (net store) as [| | |[|e l] [pid|]]; reflexivity.
  - cbn [total successful failed]. split; [exact (length_fmap f sel)|].
    exact (List.filter_length success (f <$> sel)).
Qed.

Lemma C9_batch_results_independent_witness :
  let stores := [mkStore "s1" "One" "one.example"; mkStore "s2" "Two" "two.example";
                 mkStore "s3" "Three" "three.example"] in
  let tokens := [("s1", "t1"); ("s2", "t2"); ("s3", "t3")] in
  let net := fun s => if str_eqb (s_id s) "s2" then SNotOk "Bad Gateway"
                      else SJson [] (Some ("gid-" ++ s_id s)) in
  selectedStores stores ["s1"; "s2"; "s3"] tokens <> [] /\
  onRequestPost 1 stores ["s1"; "s2"; "s3"] tokens net =
    BatchOk [mkResult "s1" "One" true None (Some "gid-s1");
             mkResult "s2" "Two" false (Some "HTTP error: Bad Gateway") None;
             mkResult "s3" "Three" true None (Some "gid-s3")]
            (mkSummary 3 2 1) /\
  (exists results summary,
    onRequestPost 1 stores ["s1"; "s2"; "s3"] tokens net = BatchOk results summary /\
    length results = 3 /\ total summary = 3 /\
    successful summary + failed summary = total summary).
Proof.
  intros stores tokens net.
  assert (Hsel : selectedStores stores ["s1"; "s2"; "s3"] tokens <> [])
    by (vm_compute; discriminate).
  split; [exact Hsel|]. split; [vm_compute; reflexivity|].
  destruct (C9_batch_results_independent 1 stores ["s1"; "s2"; "s3"] tokens net Hsel)
    as (results & summary & Hr & Hlen & _ & Htot & Hsum).
  exists results, summary. split; [exact Hr|].
  rewrite Hlen in *. split; [reflexivity|]. split; [exact Htot|exact Hsum].
Defined.

(* ------------------------------------------------------------------ *)
(** ** C4 *)

Definition variant_failure_message (vm : VariantMapping) (r : fetch_outcome) : string :=
  match r with
  | FNotOk (JsonObj err) =>
      "Failed to import variant " ++ v_title (vm_variant vm) ++ ": " ++ show_opt err
  | FNotOk (NotJson msg) => msg
  | FReject msg => msg
  | FOk => ""
  end.

(** The sequential loop stops at the first failing variant: the calls
    issued are those of the variants up to and including it, and the
    exception is the one raised for it. *)
Lemma import_variants_stop (net : nat -> fetch_outcome) (sku : string)
    (pre : list VariantMapping) (vm : VariantMapping) (post : list VariantMapping)
    (log : list request) :
  (forall k, k < length pre -> net (length log + k) = FOk) ->
  net (length log + length pre) <> FOk ->
  import_variants net sku (pre ++ vm :: post)%list log =
  ((log ++ ((fun v => ImportVariant (vm_variant v) sku) <$> (pre ++ [vm])))%list,
   inl (variant_failure_message vm (net (length log + length pre)))).
Proof.
  revert log. induction pre as [|v pre IH]; intros log Hok Hfail.
  - simpl in Hfail |- *. rewrite Nat.add_0_r in Hfail |- *. unfold bind, fetch.
    destruct (net (length log)) as [|[]|] eqn:E; [congruence| | |]; reflexivity.
  - simpl. unfold bind, fetch.
    pose proof (Hok 0 ltac:(simpl; lia)) as H0. rewrite Nat.add_0_r in H0.
    rewrite H0, IH.
    + rewrite <- app_assoc, length_app. simpl.
      replace (length log + 1 + length pre) with (length log + S (length pre)) by lia.
      reflexivity.
    + intros k Hk. rewrite length_app. simpl.
      replace (length log + 1 + k) with (length log + S k) by lia.
      apply Hok. simpl. lia.
    + rewrite length_app. simpl.
      replace (length log + 1 + length pre) with (length log + S (length pre)) by lia.
      exact Hfail.
Qed.

(** C4 (code defect): variant 2 of 3 fails because its [fetch] rejects
    (network error).  The loop halts (variant 3 is never requested), but
    the reported outcome is ["Import failed: Failed to fetch"], which does
    not name variant 2: only the non-OK-response path builds the message
    naming the variant. *)
Theorem C4_network_failure_unnamed :
  let v1 := mkVariant "TANK-RED" "Red" in
  let v2 := mkVariant "TANK-GREEN" "Green" in
  let v3 := mkVariant "TANK-BLUE" "Blue" in
  let net := fun n => if Nat.eqb n 1 then FReject "Failed to fetch" else FOk in
  handleSaveMapping net "TANK" false [] [] [mkVM v1 ∅; mkVM v2 ∅; mkVM v3 ∅] =
    ([ImportVariant v1 "TANK"; ImportVariant v2 "TANK"], "Import failed: Failed to fetch") /\
  includes "Import failed: Failed to fetch" "Green" = false /\
  includes "Import failed: Failed to fetch" "TANK-GREEN" = false.
Proof. vm_compute. repeat split. Qed.

(* ------------------------------------------------------------------ *)
(** ** C7 *)

Definition score_match (productType : string) (c : CategoryOption) : cat_match :=
  mkCM (cat_value c) (category_score productType c).

(** [b] does not rank above [a]. *)
Definition ranks_before (a b : cat_match) : Prop := Qle (cm_similarity b) (cm_similarity a).

Lemma collect_matches_eq (productType : string) (categories : list CategoryOption) :
  collect_matches productType categories =
  List.map (score_match productType)
    (List.filter (fun c => Nat.ltb 0 (overlap (split_parts (toLowerCase productType))
                                        (split_parts (toLowerCase (cat_label c)))))
       categories).
Proof.
  unfold collect_matches. induction categories as [|c cs IH]; simpl; [reflexivity|].
  destruct (Nat.ltb 0 _); simpl; rewrite IH; reflexivity.
Qed.

Lemma insert_desc_perm (x : cat_match) (l : list cat_match) :
  Permutation (insert_desc x l) (x :: l).
Proof.
  induction l as [|y l IH]; simpl; [reflexivity|].
  destruct (Qle_bool _ _); [|reflexivity].
  rewrite IH. apply perm_swap.
Qed.

Lemma sort_desc_perm_acc (l acc : list cat_match) :
  Permutation (List.fold_left (fun acc x => insert_desc x acc) l acc) (l ++ acc)%list.
Proof.
  revert acc. induction l as [|x l IH]; intros acc; simpl; [reflexivity|].
  rewrite IH, insert_desc_perm. apply Permutation_sym, Permutation_middle.
Qed.

Lemma sort_desc_perm (l : list cat_match) : Permutation (sort_desc l) l.
Proof. unfold sort_desc. rewrite sort_desc_perm_acc. by rewrite app_nil_r. Qed.

Lemma insert_desc_hd (x y : cat_match) (l : list cat_match) :
  ranks_before y x -> HdRel ranks_before y l -> HdRel ranks_before y (insert_desc x l).
Proof.
  intros Hyx Hl. destruct l as [|z l]; simpl; [by constructor|].
  destruct (Qle_bool _ _); constructor; [by inversion Hl|exact Hyx].
Qed.

Lemma insert_desc_sorted (x : cat_match) (l : list cat_match) :
  Sorted ranks_before l -> Sorted ranks_before (insert_desc x l).
Proof.
  induction 1 as [|y l Hs IH Hhd]; simpl; [by repeat constructor|].
  destruct (Qle_bool (cm_similarity x) (cm_similarity y)) eqn:E.
  - constructor; [exact IH|]. apply insert_desc_hd; [|exact Hhd].
    unfold ranks_before. by apply Qle_bool_iff.
  - constructor; [constructor; assumption|]. constructor.
    unfold ranks_before. apply Qlt_le_weak, Qnot_le_lt.
    intros H. apply Qle_bool_iff in H. congruence.
Qed.

Lemma sort_desc_sorted (l : list cat_match) : Sorted ranks_before (sort_desc l).
Proof.
  unfold sort_desc. assert (H : Sorted ranks_before []) by constructor.
  revert H. generalize (@nil cat_match).
  induction l as [|x l IH]; intros acc Hacc; simpl; [exact Hacc|].
  apply IH, insert_desc_sorted, Hacc.
Qed.

Lemma ranks_before_trans (a b c : cat_match) :
  ranks_before a b -> ranks_before b c -> ranks_before a c.
Proof. intros Hab Hbc. unfold ranks_before in *. eapply Qle_trans; eassumption. Qed.

Lemma filter_sorted (f : cat_match -> bool) (l : list cat_match) :
  Sorted ranks_before l -> Sorted ranks_before (List.filter f l).
Proof.
  intros H. apply StronglySorted_Sorted.
  apply Sorted_StronglySorted in H; [|exact ranks_before_trans].
  induction H as [|x l Hs IH Hall]; simpl; [constructor|].
  destruct (f x); [|exact IH]. constructor; [exact IH|].
  apply List.Forall_forall. intros y Hy. apply List.filter_In in Hy.
  rewrite List.Forall_forall in Hall. apply Hall, Hy.
Qed.

Lemma filter_perm {B} (f : B -> bool) (l l' : list B) :
  Permutation l l' -> Permutation (List.filter f l) (List.filter f l').
Proof.
  induction 1; simpl.
  - constructor.
  - destruct (f x); [by constructor|assumption].
  - destruct (f x), (f y); try constructor; reflexivity.
  - etransitivity; eassumption.
Qed.

(** A category without overlapping tokens has score 0, so it is never
    above 0.3: dropping it before the filter changes nothing. *)
Lemma filter_collect (productType : string) (categories : list CategoryOption) :
  List.filter (fun m => negb (Qle_bool (cm_similarity m) (3 # 10)))
    (collect_matches productType categories) =
  List.map (score_match productType)
    (List.filter (fun c => negb (Qle_bool (category_score productType c) (3 # 10)))
       categories).
Proof.
  rewrite collect_matches_eq. induction categories as [|c cs IH]; simpl; [reflexivity|].
  destruct (Nat.ltb 0 _) eqn:E; simpl.
  - destruct (negb _); simpl; rewrite IH; reflexivity.
  - rewrite IH. apply Nat.ltb_ge in E. unfold category_score.
    replace (overlap _ _) with 0 by lia. reflexivity.
Qed.

(** Counterexample to C7: for the product type "Vape Kits" the category
    "Vaping / Kits" does not score 1.0 ("vaping" does not contain "vape",
    nor the converse; only "kits" overlaps): its score is 1/2. *)
Lemma C7_vaping_kits_scores_half :
  ~ Qeq (category_score "Vape Kits" (mkCat "Vaping / Kits" "12")) 1 /\
  Qeq (category_score "Vape Kits" (mkCat "Vaping / Kits" "12")) (1 # 2).
Proof. split; [intros H; vm_compute in H; discriminate|reflexivity]. Qed.

(** C7 (amended): [findBestMatchingCategory] returns the values of exactly
    the categories whose score (count of product-type tokens overlapping
    some label token by substring, divided by the larger token count) is
    above 0.3, ordered by non-increasing score; for "Vape Kits", the
    category "Vaping / Kits" (score 1/2) is returned and "Accessories"
    (score 0) is not. *)
Theorem C7_category_ranking (productType : string) (categories : list CategoryOption) :
  (exists L : list cat_match,
     findBestMatchingCategory productType categories = List.map cm_value L /\
     Permutation L (List.map (score_match productType)
       (List.filter (fun c => negb (Qle_bool (category_score productType c) (3 # 10)))
          categories)) /\
     Sorted ranks_before L) /\
  (Qeq (category_score "Vape Kits" (mkCat "Vaping / Kits" "12")) (1 # 2) /\
   Qeq (category_score "Vape Kits" (mkCat "Accessories" "31")) 0 /\
   findBestMatchingCategory "Vape Kits"
     [mkCat "Vaping / Kits" "12"; mkCat "Accessories" "31"] = ["12"]).
Proof.
  split; [|split; [reflexivity|split; reflexivity]].
  eexists. split; [reflexivity|]. split.
  - rewrite <- filter_collect. apply filter_perm, sort_desc_perm.
  - apply filter_sorted, sort_desc_sorted.
Qed.

(* ================================================================== *)
(** * Further properties of the code *)

(** ** The Levenshtein table *)

Definition indicator_at (s1 : list ascii) (k : nat) (c2 : ascii) : nat :=
  if Ascii.eqb (List.nth k s1 "000"%char) c2 then 0 else 1.

Lemma row_tail_length (s1 : list ascii) (c2 : ascii) (left diag : nat) (ups : list nat) :
  List.length (row_tail s1 c2 left diag ups) = Nat.min (List.length s1) (List.length ups).
Proof.
  revert left diag ups. induction s1 as [|a s1 IH]; intros left diag [|up ups]; simpl;
    try reflexivity. by rewrite IH.
Qed.

(** Entry [k] of a new row is at most the diagonal entry plus the indicator. *)
Lemma row_tail_diag (s1 : list ascii) (c2 : ascii) (left diag : nat) (ups : list nat)
    (k : nat) :
  k < List.length (row_tail s1 c2 left diag ups) ->
  List.nth k (row_tail s1 c2 left diag ups) 0 <= List.nth k (diag :: ups) 0 + indicator_at s1 k c2.
Proof.
  revert left diag ups k. induction s1 as [|a s1 IH]; intros left diag [|up ups] k Hk;
    simpl in Hk; try lia.
  destruct k as [|k]; simpl.
  - unfold indicator_at. simpl. lia.
  - apply IH. exact (proj2 (Nat.succ_lt_mono _ _) Hk).
Qed.

Lemma next_row_length (s1 : list ascii) (c2 : ascii) (j : nat) (prev : list nat) :
  List.length prev = List.length s1 + 1 ->
  List.length (next_row s1 c2 j prev) = List.length s1 + 1.
Proof.
  destruct prev as [|p0 ps]; simpl; [lia|]. intros H. rewrite row_tail_length. lia.
Qed.

(** Row [j] entries satisfy [track[j][i] <= max i j]. *)
Definition row_bounded (j : nat) (r : list nat) : Prop :=
  forall i, i < List.length r -> List.nth i r 0 <= Nat.max i j.

Lemma next_row_bounded (s1 : list ascii) (c2 : ascii) (j : nat) (prev : list nat) :
  List.length prev = List.length s1 + 1 -> row_bounded j prev ->
  row_bounded (S j) (next_row s1 c2 (S j) prev).
Proof.
  intros Hl Hb i Hi. destruct prev as [|p0 ps]; [simpl in Hl; lia|].
  destruct i as [|i]; simpl; [lia|].
  simpl in Hi. apply Nat.succ_lt_mono in Hi.
  pose proof (row_tail_diag s1 c2 (S j) p0 ps i Hi) as H.
  assert (Hp : List.nth i (p0 :: ps) 0 <= Nat.max i j).
  { apply Hb. rewrite row_tail_length in Hi. simpl in Hl |- *. lia. }
  unfold indicator_at in H. destruct (Ascii.eqb _ _); lia.
Qed.

Lemma rows_bounded (s1 s2 : list ascii) (j : nat) (prev : list nat) :
  List.length prev = List.length s1 + 1 -> row_bounded j prev ->
  List.length (rows s1 s2 (S j) prev) = List.length s1 + 1 /\
  row_bounded (j + List.length s2) (rows s1 s2 (S j) prev).
Proof.
  revert j prev. induction s2 as [|c s2 IH]; intros j prev Hl Hb; simpl.
  - rewrite Nat.add_0_r. split; assumption.
  - replace (j + S (List.length s2)) with (S j + List.length s2) by lia.
    apply IH; [by apply next_row_length|]. by apply next_row_bounded.
Qed.

Lemma last_nth (l : list nat) (d : nat) :
  List.last l d = List.nth (List.length l - 1) l d.
Proof.
  induction l as [|a l IH]; [reflexivity|].
  destruct l as [|b l]; [reflexivity|].
  change (List.last (b :: l) d = List.nth (List.length (b :: l)) (a :: b :: l) d).
  rewrite IH. simpl. by rewrite Nat.sub_0_r.
Qed.

Lemma levenshtein_le_max (s1 s2 : list ascii) :
  levenshtein s1 s2 <= Nat.max (List.length s1) (List.length s2).
Proof.
  unfold levenshtein.
  destruct (rows_bounded s1 s2 0 (List.seq 0 (List.length s1 + 1))) as [Hl Hb].
  - apply List.length_seq.
  - intros i Hi. rewrite List.length_seq in Hi. rewrite List.seq_nth by exact Hi. lia.
  - simpl in Hb. rewrite last_nth, Hl, Nat.add_sub.
    apply Hb. rewrite Hl. lia.
Qed.

(** Extra: for two strings not both empty, the similarity is a number in [0, 1]. *)
Theorem getStringSimilarity_in_unit (a b : string) (Hne : a <> "" \/ b <> "") :
  exists q, getStringSimilarity a b = JNum q /\ Qle 0 q /\ Qle q 1.
Proof.
  unfold getStringSimilarity.
  set (s1 := list_ascii_of_string (toLowerCase a)).
  set (s2 := list_ascii_of_string (toLowerCase b)).
  pose proof (levenshtein_le_max s1 s2) as Hd.
  assert (Hm : Nat.max (List.length s1) (List.length s2) <> 0).
  { unfold s1, s2. rewrite !toLowerCase_length.
    destruct Hne as [H|H]; destruct a, b; simpl; try congruence; lia. }
  unfold js_div_nat. apply Nat.eqb_neq in Hm as Hb. rewrite Hb. simpl.
  eexists. split; [reflexivity|].
  set (d := levenshtein s1 s2) in *. set (m := Nat.max _ _) in *.
  destruct m as [|m']; [congruence|]. rewrite <- Pos.of_nat_succ.
  unfold Qle, Qminus, Qplus, Qopp; simpl. split; nia.
Qed.

Lemma getStringSimilarity_in_unit_witness :
  exists q, getStringSimilarity "kitten" "sitting" = JNum q /\ Qle 0 q /\ Qle q 1.
Proof. apply getStringSimilarity_in_unit. left. discriminate. Defined.

Lemma skipn_cons_nth (s : list ascii) (j : nat) (c : ascii) (rem : list ascii) :
  List.skipn j s = c :: rem ->
  List.nth j s "000"%char = c /\ List.skipn (S j) s = rem /\ j < List.length s.
Proof.
  revert j. induction s as [|a s IH]; intros [|j] H; simpl in H |- *; try discriminate.
  - injection H as -> ->. split; [reflexivity|]. split; [reflexivity|lia].
  - destruct (IH j H) as (H1 & H2 & H3). split; [exact H1|]. split; [exact H2|lia].
Qed.

Lemma skipn_nil_length (s : list ascii) (j : nat) :
  List.skipn j s = [] -> j <= List.length s -> j = List.length s.
Proof.
  intros H Hj. apply (f_equal (@List.length ascii)) in H.
  rewrite List.length_skipn in H. simpl in H. lia.
Qed.

(** Along the diagonal of the table of a string against itself every entry is 0. *)
Lemma rows_diag (s rem : list ascii) (j : nat) (prev : list nat) :
  List.length prev = List.length s + 1 -> j <= List.length s ->
  List.nth j prev 0 = 0 -> rem = List.skipn j s ->
  List.last (rows s rem (S j) prev) 0 = 0.
Proof.
  revert j prev. induction rem as [|c rem IH]; intros j prev Hl Hj H0 Hrem; simpl.
  - symmetry in Hrem. apply skipn_nil_length in Hrem; [|exact Hj]. subst j.
    by rewrite last_nth, Hl, Nat.add_sub.
  - symmetry in Hrem. destruct (skipn_cons_nth s j c rem Hrem) as (Hc & Hr & Hlt).
    apply IH; [by apply next_row_length|lia| |by symmetry].
    destruct prev as [|p0 ps]; [simpl in Hl; lia|]. simpl.
    assert (Hk : j < List.length (row_tail s c (S j) p0 ps)).
    { rewrite row_tail_length. simpl in Hl. lia. }
    pose proof (row_tail_diag s c (S j) p0 ps j Hk) as H.
    unfold indicator_at in H. rewrite Hc, Ascii.eqb_refl in H. lia.
Qed.

Lemma levenshtein_refl (s : list ascii) : levenshtein s s = 0.
Proof.
  unfold levenshtein. apply rows_diag; [apply List.length_seq|lia| |reflexivity].
  destruct s; reflexivity.
Qed.

(** Extra: a non-empty string has similarity exactly 1 with itself, and with any
    string that has the same lower-case form. *)
Theorem getStringSimilarity_same_lower (a b : string) (Hne : a <> "")
    (Hl : toLowerCase a = toLowerCase b) :
  js_eqq (getStringSimilarity a b) 1 = true.
Proof.
  unfold getStringSimilarity. rewrite <- Hl, levenshtein_refl, Nat.max_id.
  rewrite toLowerCase_length.
  destruct a as [|c a]; [congruence|]. simpl. apply Qeq_bool_iff.
  unfold Qeq, Qminus, Qplus, Qopp. simpl. lia.
Qed.

Lemma getStringSimilarity_same_lower_witness :
  js_eqq (getStringSimilarity "Vendor" "vENDOR") 1 = true.
Proof. apply getStringSimilarity_same_lower; [discriminate|vm_compute; reflexivity]. Defined.

(** ** Running maximum with first-seen tie-break *)

Lemma js_gt_num (x y : Q) : js_gt (JNum x) (JNum y) = true <-> (y < x)%Q.
Proof.
  simpl. destruct (Qle_bool x y) eqn:E; simpl; split; intros H; try discriminate.
  - apply Qle_bool_iff in E. exfalso. exact (Qlt_not_le _ _ H E).
  - apply Qnot_le_lt. intros H'. apply Qle_bool_iff in H'. congruence.
  - reflexivity.
Qed.

Lemma js_gt_trans (a b c : jsnum) :
  js_gt a b = true -> js_gt b c = true -> js_gt a c = true.
Proof.
  destruct a as [x|], b as [y|], c as [z|]; try discriminate.
  rewrite !js_gt_num. intros H1 H2. exact (Qlt_trans _ _ _ H2 H1).
Qed.

Lemma js_gt_not_ge (a x : jsnum) : js_gt a x = true -> js_ge x a = false.
Proof.
  destruct a as [q|], x as [r|]; try discriminate. rewrite js_gt_num. intros H.
  simpl. destruct (Qle_bool q r) eqn:E; [|reflexivity].
  apply Qle_bool_iff in E. exfalso. exact (Qlt_not_le _ _ H E).
Qed.

Lemma js_gt_between (a x h : jsnum) :
  js_gt a h = true -> js_gt x h = false -> js_ge x a = false.
Proof.
  destruct a as [q|], h as [r|]; try discriminate. rewrite js_gt_num. intros Ha.
  destruct x as [t|]; [|reflexivity]. intros Hx. simpl in Hx |- *.
  destruct (Qle_bool t r) eqn:E3; [|discriminate].
  destruct (Qle_bool q t) eqn:E2; [|reflexivity].
  apply Qle_bool_iff in E3, E2. exfalso.
  apply (Qlt_not_le _ _ Ha). exact (Qle_trans _ _ _ E2 E3).
Qed.

Lemma js_not_ge_not_gt (b a : jsnum) : js_ge b a = false -> js_gt b a = false.
Proof.
  destruct b as [x|], a as [y|]; try reflexivity. simpl. intros H.
  destruct (Qle_bool x y) eqn:E; [reflexivity|].
  apply not_true_iff_false in H, E. exfalso.
  destruct (Qlt_le_dec x y) as [Hl|Hl].
  - apply E. apply Qle_bool_iff. exact (Qlt_le_weak _ _ Hl).
  - apply H. apply Qle_bool_iff. exact Hl.
Qed.

Lemma js_not_gt_trans (b a c : jsnum) :
  js_gt b a = false -> js_gt a c = false -> (exists q, a = JNum q) -> js_gt b c = false.
Proof.
  intros H1 H2 [q ->]. destruct b as [x|], c as [z|]; try reflexivity. simpl in *.
  destruct (Qle_bool x q) eqn:E1; [|discriminate].
  destruct (Qle_bool q z) eqn:E2; [|discriminate].
  apply Qle_bool_iff in E1, E2. assert (E : Qle_bool x z = true).
  { apply Qle_bool_iff. exact (Qle_trans _ _ _ E1 E2). }
  by rewrite E.
Qed.

Section RunningMax.
Context {A P : Type} (score : A -> jsnum) (f : A -> P)
  (step : P * jsnum -> A -> P * jsnum).
Hypothesis Hstep : forall p h x,
  step (p, h) x = if js_gt (score x) h then (f x, score x) else (p, h).

(** A [forEach] keeping the element with the highest score, replacing it
    only on a strictly higher one, keeps the first element of maximal score
    among those above the start value. *)
Lemma fold_first_max (l : list A) (p : P) (h : jsnum) :
  (List.fold_left step l (p, h) = (p, h) /\
   forall b, In b l -> js_gt (score b) h = false) \/
  (exists pre a post, l = (pre ++ a :: post)%list /\
     List.fold_left step l (p, h) = (f a, score a) /\ js_gt (score a) h = true /\
     (forall b, In b pre -> js_ge (score b) (score a) = false) /\
     (forall b, In b post -> js_gt (score b) (score a) = false)).
Proof.
  revert p h. induction l as [|x l IH]; intros p h.
  - left. split; [reflexivity|]. intros b [].
  - simpl. rewrite Hstep. destruct (js_gt (score x) h) eqn:Ex.
    + right. destruct (IH (f x) (score x)) as [[Hf Hl]|(pre & a & post & -> & Hf & Ha & Hpre & Hpost)].
      * exists [], x, l. split; [reflexivity|]. split; [exact Hf|].
        split; [exact Ex|]. split; [intros b []|exact Hl].
      * exists (x :: pre), a, post. split; [reflexivity|]. split; [exact Hf|].
        split; [exact (js_gt_trans _ _ _ Ha Ex)|]. split; [|exact Hpost].
        intros b [<-|Hb]; [exact (js_gt_not_ge _ _ Ha)|exact (Hpre b Hb)].
    + destruct (IH p h) as [[Hf Hl]|(pre & a & post & -> & Hf & Ha & Hpre & Hpost)].
      * left. split; [exact Hf|]. intros b [<-|Hb]; [exact Ex|exact (Hl b Hb)].
      * right. exists (x :: pre), a, post. split; [reflexivity|]. split; [exact Hf|].
        split; [exact Ha|]. split; [|exact Hpost].
        intros b [<-|Hb]; [exact (js_gt_between _ _ _ Ha Ex)|exact (Hpre b Hb)].
Qed.

(** The same loop started below a threshold [t]: either its winner is above
    [t], or no element is. *)
Lemma fold_first_max_above (l : list A) (p : P) (h t : jsnum) :
  js_gt h t = false -> (exists q, h = JNum q) ->
  (exists pre a post, l = (pre ++ a :: post)%list /\
     List.fold_left step l (p, h) = (f a, score a) /\ js_gt (score a) t = true /\
     (forall b, In b pre -> js_ge (score b) (score a) = false) /\
     (forall b, In b post -> js_gt (score b) (score a) = false)) \/
  (js_gt (snd (List.fold_left step l (p, h))) t = false /\
   forall b, In b l -> js_gt (score b) t = false).
Proof.
  intros Ht Hh.
  destruct (fold_first_max l p h) as [[Hf Hl]|(pre & a & post & Hl & Hf & Ha & Hpre & Hpost)].
  - right. rewrite Hf. split; [exact Ht|].
    intros b Hb. exact (js_not_gt_trans _ _ _ (Hl b Hb) Ht Hh).
  - destruct (js_gt (score a) t) eqn:Eat.
    + left. exists pre, a, post. tauto.
    + right. rewrite Hf. split; [exact Eat|].
      assert (Hq : exists q, score a = JNum q).
      { destruct (score a) as [q|]; [by exists q|discriminate]. }
      intros b Hb. rewrite Hl in Hb. apply List.in_app_iff in Hb as [Hb|[<-|Hb]].
      * exact (js_not_gt_trans _ _ _ (js_not_ge_not_gt _ _ (Hpre b Hb)) Eat Hq).
      * exact Eat.
      * exact (js_not_gt_trans _ _ _ (Hpost b Hb) Eat Hq).
Qed.
End RunningMax.

(** ** findBestMatchingOptionValue and the fuzzy attribute search *)

Definition option_sim (shopifyValue : string) (o : attr_option) : jsnum :=
  getStringSimilarity (toLowerCase shopifyValue) (toLowerCase (opt_label o)).

Lemma findBestMatchingOptionValue_spec (v : string) (os : list attr_option)
    (Hv : v <> "") :
  (exists pre o post, os = (pre ++ o :: post)%list /\
     js_gt (option_sim v o) (JNum (6 # 10)) = true /\
     (forall b, In b pre -> js_ge (option_sim v b) (option_sim v o) = false) /\
     (forall b, In b post -> js_gt (option_sim v b) (option_sim v o) = false) /\
     findBestMatchingOptionValue v (Some os) = opt_value o) \/
  (findBestMatchingOptionValue v (Some os) = "" /\
   forall o, In o os -> js_gt (option_sim v o) (JNum (6 # 10)) = false).
Proof.
  unfold findBestMatchingOptionValue.
  assert (Ht : str_truthy v = true) by (destruct v; [congruence|reflexivity]).
  rewrite Ht. simpl negb. cbv iota.
  match goal with |- context [List.fold_left ?g os ?i] =>
  destruct (fold_first_max_above (option_sim v) opt_value g
              (fun p h x => eq_refl) os "" (JNum 0) (JNum (6 # 10)) eq_refl
              (ex_intro _ 0%Q eq_refl))
    as [(pre & o & post & Hl & Hf & Ho & Hpre & Hpost)|[Hs Hall]] end.
  - left. exists pre, o, post. rewrite Hf, Ho. tauto.
  - right. split; [|exact Hall].
    destruct (List.fold_left _ os ("", JNum 0)) as [best highest]. simpl in Hs.
    by rewrite Hs.
Qed.

(** Extra: for a non-empty value, [findBestMatchingOptionValue] returns the
    value of the first option of highest label similarity when that
    similarity is above 0.6, and [""] when no option's similarity is. *)
Theorem findBestMatchingOptionValue_first_best (v : string) (os : list attr_option)
    (Hv : v <> "") :
  (exists pre o post, os = (pre ++ o :: post)%list /\
     js_gt (option_sim v o) (JNum (6 # 10)) = true /\
     (forall b, In b pre -> js_ge (option_sim v b) (option_sim v o) = false) /\
     (forall b, In b post -> js_gt (option_sim v b) (option_sim v o) = false) /\
     findBestMatchingOptionValue v (Some os) = opt_value o) \/
  (findBestMatchingOptionValue v (Some os) = "" /\
   forall o, In o os -> js_gt (option_sim v o) (JNum (6 # 10)) = false).
Proof. exact (findBestMatchingOptionValue_spec v os Hv). Qed.

Lemma findBestMatchingOptionValue_first_best_witness :
  exists pre o post,
    [mkOption "Red" "10"; mkOption "Blue" "11"] = (pre ++ o :: post)%list /\
    js_gt (option_sim "blue" o) (JNum (6 # 10)) = true /\
    (forall b, In b pre -> js_ge (option_sim "blue" b) (option_sim "blue" o) = false) /\
    (forall b, In b post -> js_gt (option_sim "blue" b) (option_sim "blue" o) = false) /\
    findBestMatchingOptionValue "blue" (Some [mkOption "Red" "10"; mkOption "Blue" "11"]) = opt_value o.
Proof.
  destruct (findBestMatchingOptionValue_first_best "blue"
              [mkOption "Red" "10"; mkOption "Blue" "11"] ltac:(discriminate))
    as [H|[H _]]; [exact H|].
  exfalso. vm_compute in H. discriminate.
Defined.

Lemma fuzzy_loop_first_max (shopifyAttr shopifyValue : string)
    (attributes : list MagentoAttributeMetadata) :
  (exists pre a post, attributes = (pre ++ a :: post)%list /\
     fuzzy_loop shopifyAttr shopifyValue attributes =
       (attribute_code a, options a, attr_score shopifyAttr shopifyValue a) /\
     js_gt (attr_score shopifyAttr shopifyValue a) (JNum (4 # 10)) = true /\
     (forall b, In b pre -> js_ge (attr_score shopifyAttr shopifyValue b)
                                  (attr_score shopifyAttr shopifyValue a) = false) /\
     (forall b, In b post -> js_gt (attr_score shopifyAttr shopifyValue b)
                                   (attr_score shopifyAttr shopifyValue a) = false)) \/
  (js_gt (snd (fuzzy_loop shopifyAttr shopifyValue attributes)) (JNum (4 # 10)) = false /\
   forall b, In b attributes ->
     js_gt (attr_score shopifyAttr shopifyValue b) (JNum (4 # 10)) = false).
Proof.
  unfold fuzzy_loop.
  exact (fold_first_max_above (attr_score shopifyAttr shopifyValue)
           (fun a => (attribute_code a, options a)) (fuzzy_step shopifyAttr shopifyValue)
           (fun '(bm, bo) h x => eq_refl) attributes ("", None) (JNum 0) (JNum (4 # 10))
           eq_refl (ex_intro _ 0%Q eq_refl)).
Qed.

(** Extra: when no direct mapping applies, [findBestMatchingAttribute] picks
    the first attribute of highest total score if that score is above 0.4,
    with the value resolved against that attribute's options, and otherwise
    returns empty code and value; in particular a non-empty code is always the
    code of a catalog attribute. *)
Theorem findBestMatchingAttribute_fuzzy_first_best (shopifyAttr shopifyValue : string)
    (attributes : list MagentoAttributeMetadata)
    (Hnodirect : forall target, assoc_lookup directMappings shopifyAttr = Some target ->
                                find_attr target attributes = None) :
  (exists pre a post, attributes = (pre ++ a :: post)%list /\
     js_gt (attr_score shopifyAttr shopifyValue a) (JNum (4 # 10)) = true /\
     (forall b, In b pre -> js_ge (attr_score shopifyAttr shopifyValue b)
                                  (attr_score shopifyAttr shopifyValue a) = false) /\
     (forall b, In b post -> js_gt (attr_score shopifyAttr shopifyValue b)
                                   (attr_score shopifyAttr shopifyValue a) = false) /\
     findBestMatchingAttribute shopifyAttr shopifyValue attributes =
       mkMatch (attribute_code a) (findBestMatchingOptionValue shopifyValue (options a))) \/
  (findBestMatchingAttribute shopifyAttr shopifyValue attributes = mkMatch "" "" /\
   forall b, In b attributes ->
     js_gt (attr_score shopifyAttr shopifyValue b) (JNum (4 # 10)) = false).
Proof.
  unfold findBestMatchingAttribute.
  assert (Hd : match assoc_lookup directMappings shopifyAttr with
               | Some target =>
                   match find_attr target attributes with
                   | Some dm => Some (mkMatch (attribute_code dm)
                                  (findBestMatchingOptionValue shopifyValue (options dm)))
                   | None => None
                   end
               | None => None
               end = None).
  { destruct (assoc_lookup directMappings shopifyAttr) as [target|] eqn:E; [|reflexivity].
    by rewrite (Hnodirect target eq_refl). }
  rewrite Hd.
  destruct (fuzzy_loop_first_max shopifyAttr shopifyValue attributes)
    as [(pre & a & post & Hl & Hf & Ha & Hpre & Hpost)|[Hs Hall]].
  - left. exists pre, a, post. rewrite Hf, Ha. tauto.
  - right. split; [|exact Hall].
    destruct (fuzzy_loop shopifyAttr shopifyValue attributes) as [[bm bo] hi].
    simpl in Hs. by rewrite Hs.
Qed.

Lemma findBestMatchingAttribute_fuzzy_first_best_witness :
  let cat := [mkAttr "color" "select" "Color" (Some [mkOption "Red" "5"]);
              mkAttr "colour" "select" "Colour" None] in
  (exists pre a post, cat = (pre ++ a :: post)%list /\
     js_gt (attr_score "Colours" "red" a) (JNum (4 # 10)) = true /\
     (forall b, In b pre -> js_ge (attr_score "Colours" "red" b)
                                  (attr_score "Colours" "red" a) = false) /\
     (forall b, In b post -> js_gt (attr_score "Colours" "red" b)
                                   (attr_score "Colours" "red" a) = false) /\
     findBestMatchingAttribute "Colours" "red" cat =
       mkMatch (attribute_code a) (findBestMatchingOptionValue "red" (options a))) \/
  (findBestMatchingAttribute "Colours" "red" cat = mkMatch "" "" /\
   forall b, In b cat -> js_gt (attr_score "Colours" "red" b) (JNum (4 # 10)) = false).
Proof.
  apply findBestMatchingAttribute_fuzzy_first_best.
  intros target H. vm_compute in H. discriminate.
Defined.

(** Extra: the MultiVariantMapping matcher only maps [vendor], [vendorBrand]
    and [productType], onto a catalog attribute; a non-empty source value is
    never lost: the mapped value is a matching option's value or the source
    value itself. *)
Theorem findBestMatchingAttribute_mv_keeps_value (shopifyAttr shopifyValue : string)
    (attributes : list MagentoAttributeMetadata) (Hv : shopifyValue <> "") :
  findBestMatchingAttribute_mv shopifyAttr shopifyValue attributes = mkMatch "" "" \/
  exists target dm,
    assoc_lookup directMappings_mv shopifyAttr = Some target /\
    In dm attributes /\ attribute_code dm = target /\
    attributeCode (findBestMatchingAttribute_mv shopifyAttr shopifyValue attributes) = target /\
    optionValue (findBestMatchingAttribute_mv shopifyAttr shopifyValue attributes) <> "" /\
    (optionValue (findBestMatchingAttribute_mv shopifyAttr shopifyValue attributes) = shopifyValue \/
     exists os o, options dm = Some os /\ In o os /\
       js_gt (option_sim shopifyValue o) (JNum (6 # 10)) = true /\
       optionValue (findBestMatchingAttribute_mv shopifyAttr shopifyValue attributes) = opt_value o).
Proof.
  unfold findBestMatchingAttribute_mv.
  destruct (assoc_lookup directMappings_mv shopifyAttr) as [target|] eqn:Et; [|by left].
  destruct (find_attr target attributes) as [dm|] eqn:Ed; [|by left].
  right. exists target, dm.
  unfold find_attr in Ed. apply List.find_some in Ed as [Hin Hc].
  unfold str_eqb in Hc. apply String.eqb_eq in Hc.
  split; [reflexivity|]. split; [exact Hin|]. split; [exact Hc|]. simpl.
  split; [exact Hc|].
  destruct (options dm) as [os|] eqn:Eo.
  - destruct (findBestMatchingOptionValue_spec shopifyValue os Hv)
      as [(pre & o & post & Hl & Ho & _ & _ & Hf)|[Hf _]]; rewrite Hf.
    + destruct (opt_value o) as [|c r] eqn:Ev; simpl.
      * split; [exact Hv|by left].
      * split; [discriminate|]. right. exists os, o. split; [reflexivity|].
        split; [rewrite Hl; apply List.in_app_iff; right; left; reflexivity|].
        split; [exact Ho|by rewrite Ev].
    + simpl. split; [exact Hv|by left].
  - simpl. split; [exact Hv|by left].
Qed.

Lemma findBestMatchingAttribute_mv_keeps_value_witness :
  let cat := [mkAttr "manufacturer" "select" "Manufacturer" (Some [mkOption "Acme" "7"])] in
  findBestMatchingAttribute_mv "vendor" "Zeta Labs" cat = mkMatch "" "" \/
  exists target dm,
    assoc_lookup directMappings_mv "vendor" = Some target /\
    In dm cat /\ attribute_code dm = target /\
    attributeCode (findBestMatchingAttribute_mv "vendor" "Zeta Labs" cat) = target /\
    optionValue (findBestMatchingAttribute_mv "vendor" "Zeta Labs" cat) <> "" /\
    (optionValue (findBestMatchingAttribute_mv "vendor" "Zeta Labs" cat) = "Zeta Labs" \/
     exists os o, options dm = Some os /\ In o os /\
       js_gt (option_sim "Zeta Labs" o) (JNum (6 # 10)) = true /\
       optionValue (findBestMatchingAttribute_mv "vendor" "Zeta Labs" cat) = opt_value o).
Proof. apply findBestMatchingAttribute_mv_keeps_value. discriminate. Defined.

(** ** findBestMatchingCategory on an empty product type *)

Lemma split_go_nonnil (s cur : string) (r : bool) : split_go s cur r <> [].
Proof.
  revert cur r. induction s as [|c s IH]; intros cur r; simpl; [discriminate|].
  destruct (is_sep c); [destruct r; [apply IH|discriminate]|apply IH].
Qed.

Lemma includes_empty (a : string) : includes a "" = true.
Proof. destruct a; reflexivity. Qed.

Lemma category_score_empty (c : CategoryOption) :
  negb (Qle_bool (category_score "" c) (3 # 10)) =
  Nat.leb (List.length (split_parts (toLowerCase (cat_label c)))) 3.
Proof.
  unfold category_score. change (split_parts (toLowerCase "")) with [""].
  assert (Hne : split_parts (toLowerCase (cat_label c)) <> []) by apply split_go_nonnil.
  destruct (split_parts (toLowerCase (cat_label c))) as [|p ps] eqn:E; [congruence|].
  unfold overlap. simpl List.filter.
  rewrite includes_empty. simpl List.length.
  replace (Nat.max 1 (S (List.length ps))) with (S (List.length ps)) by lia.
  rewrite <- Pos.of_nat_succ. unfold Qle_bool. cbn [Qnum Qden].
  rewrite Zpos_P_of_succ_nat.
  destruct (Z.leb_spec (Z.of_nat 1 * 10) (3 * Z.succ (Z.of_nat (List.length ps))));
    destruct (Nat.leb_spec (S (List.length ps)) 3); simpl; try reflexivity; lia.
Qed.

(** Extra: with an empty product type, every category whose label has at most
    three tokens is suggested (the empty token is contained in every token),
    and no other: the result is a reordering of their values. *)
Theorem findBestMatchingCategory_empty_type (categories : list CategoryOption) :
  Permutation (findBestMatchingCategory "" categories)
    (List.map cat_value
       (List.filter (fun c => Nat.leb (List.length (split_parts (toLowerCase (cat_label c)))) 3)
          categories)).
Proof.
  unfold findBestMatchingCategory.
  rewrite (List.filter_ext (fun c => Nat.leb _ 3)
             (fun c => negb (Qle_bool (category_score "" c) (3 # 10))))
    by (intros c; by rewrite category_score_empty).
  replace (List.map cat_value _) with
    (List.map cm_value (List.map (score_match "")
       (List.filter (fun c => negb (Qle_bool (category_score "" c) (3 # 10))) categories)))
    by (rewrite List.map_map; reflexivity).
  apply Permutation_map. rewrite <- filter_collect. apply filter_perm, sort_desc_perm.
Qed.

(** ** Validation of multiselect values *)

(** Extra: an array mapped value is classified 'valid' exactly when it is
    non-empty and 'error' when empty, whatever the source value and options. *)
Theorem classify_array (shopifyValue : string) (l : list string)
    (options : option (list attr_option)) :
  classify shopifyValue (MArr l) options = match l with [] => Error | _ :: _ => Valid end.
Proof. by destruct l. Qed.

(** ** Product-level edits *)

(** Extra: a product-level edit of any key other than [vendor] (the page
    edits [manufacturer], [brand], [description], [category_ids] and the meta
    keys) changes the product-level MappingSet at that key only; a value edit
    stores the new value and label and keeps the key's target attribute. *)
Theorem product_edit_non_vendor_frame (product : ShopifyProduct)
    (productAttributes : AttributeMappingType) (attributeName magentoAttr : string)
    (newValue : mval) (newLabelValue : string) (Hn : attributeName <> "vendor") :
  (forall k, k <> attributeName ->
     handleProductAttributeChange product productAttributes attributeName magentoAttr !! k =
       productAttributes !! k /\
     handleProductValueChange productAttributes attributeName newValue newLabelValue !! k =
       productAttributes !! k) /\
  handleProductValueChange productAttributes attributeName newValue newLabelValue !! attributeName =
    Some (mkEntry (Some newLabelValue) (productAttributes !! attributeName ≫= e_mappedTo)
                  (Some newValue)).
Proof.
  assert (Hb : str_eqb attributeName "vendor" = false)
    by (unfold str_eqb; apply String.eqb_neq; exact Hn).
  unfold handleProductAttributeChange, handleProductValueChange. rewrite !Hb.
  split.
  - intros k Hk. rewrite !lookup_insert_ne by congruence. split; reflexivity.
  - by rewrite lookup_insert_eq.
Qed.

Lemma product_edit_non_vendor_frame_witness :
  let P := mkProduct "T" "D" "Acme" "Kits" in
  let A := <["brand" := mkEntry (Some "Acme") (Some "brand") (Some (MStr "Acme"))]>
           (∅ : AttributeMappingType) in
  (forall k, k <> "manufacturer" ->
     handleProductAttributeChange P A "manufacturer" "manufacturer" !! k = A !! k /\
     handleProductValueChange A "manufacturer" (MStr "12") "Acme Inc" !! k = A !! k) /\
  handleProductValueChange A "manufacturer" (MStr "12") "Acme Inc" !! "manufacturer" =
    Some (mkEntry (Some "Acme Inc") (A !! "manufacturer" ≫= e_mappedTo) (Some (MStr "12"))).
Proof. apply product_edit_non_vendor_frame. discriminate. Defined.

(** ** handleUpdateVariantMapping *)

(** Extra: updating variant [index] merges the update into that variant's
    MappingSet, the update's keys winning and the other keys kept, and leaves
    the other variants and the list length unchanged; an index past the end
    raises a TypeError. *)
Theorem handleUpdateVariantMapping_merge (index : nat) (mappings : AttributeMappingType)
    (st : list VariantMapping) :
  (length st <= index -> handleUpdateVariantMapping (index, mappings) st = None) /\
  (forall vm, st !! index = Some vm ->
     exists st', handleUpdateVariantMapping (index, mappings) st = Some st' /\
       length st' = length st /\
       (forall j, j <> index -> st' !! j = st !! j) /\
       exists vm', st' !! index = Some vm' /\ vm_variant vm' = vm_variant vm /\
         forall k, vm_mappings vm' !! k =
           match mappings !! k with Some e => Some e | None => vm_mappings vm !! k end).
Proof.
  split.
  - intros H. simpl. by rewrite lookup_ge_None_2 by exact H.
  - intros vm Hi. simpl. rewrite Hi. eexists. split; [reflexivity|].
    split; [apply length_insert|]. split.
    + intros j Hj. by rewrite list_lookup_insert_ne by congruence.
    + eexists. split.
      * apply list_lookup_insert_eq. apply lookup_lt_is_Some_1. by rewrite Hi.
      * split; [reflexivity|]. intros k. simpl. rewrite lookup_union.
        by destruct (mappings !! k), (vm_mappings vm !! k).
Qed.

(** ** The AttributeMapping component's own mappings *)

(** [handleAttributeChange] of AttributeMapping.tsx: the new [mappings];
    [None] is the TypeError of reading [.value] of a missing entry. *)
Definition handleAttributeChange (attributes : list MagentoAttributeMetadata)
    (mappings : AttributeMappingType) (shopifyAttr magentoAttr : string)
    : option AttributeMappingType :=
  match mappings !! shopifyAttr with
  | None => None
  | Some cur =>
      let attribute := find_attr magentoAttr attributes in
      let mappedValue :=
        match attribute ≫= options with
        | Some os =>
            let bestMatchingValue :=
              findBestMatchingOptionValue (default "" (e_value cur)) (Some os) in
            if str_truthy bestMatchingValue then Some (MStr bestMatchingValue)
            else MStr <$> e_value cur
        | None => MStr <$> e_value cur
        end in
      let newMapping := mkEntry (e_value cur) (Some magentoAttr) mappedValue in
      let newMappings := <[shopifyAttr := newMapping]> mappings in
      if str_eqb shopifyAttr "vendor" && str_eqb magentoAttr "manufacturer"
      then Some (<["brand" := mkEntry (e_value cur) (Some "brand") mappedValue]> newMappings)
      else Some newMappings
  end.

(** [handleValueChange] of AttributeMapping.tsx.  Spreading a missing entry
    gives [{}]; only the [vendor] branch reads [.mappedTo] of it. *)
Definition handleValueChange (mappings : AttributeMappingType) (shopifyAttr : string)
    (value : mval) : option AttributeMappingType :=
  let m := mappings !! shopifyAttr in
  let newMapping := mkEntry (m ≫= e_value) (m ≫= e_mappedTo) (Some value) in
  let newMappings := <[shopifyAttr := newMapping]> mappings in
  if str_eqb shopifyAttr "vendor" then
    match m with
    | None => None
    | Some cur =>
        if bool_decide (e_mappedTo cur = Some "manufacturer")
        then let b := mappings !! "brand" in
             Some (<["brand" := mkEntry (b ≫= e_value) (b ≫= e_mappedTo) (Some value)]>
                     newMappings)
        else Some newMappings
    end
  else Some newMappings.

Record SelectedOption := mkSelectedOption { so_name : string; so_value : string }.

Definition excluded (excludeAttributes : list string) (k : string) : bool :=
  List.existsb (fun x => str_eqb x k) excludeAttributes.

(** The [initialMappings] built by the mount effect of AttributeMapping. *)
Definition initialMappings (product : ShopifyProduct) (selectedOptions : list SelectedOption)
    (attributes : list MagentoAttributeMetadata) (categories : list CategoryOption)
    (excludeAttributes : list string) : AttributeMappingType :=
  let put (k : string) (e : entry) (m : AttributeMappingType) :=
    if excluded excludeAttributes k then m else <[k := e]> m in
  let base :=
    put "category_ids" (mkEntry (Some (p_productType product)) (Some "category_ids")
                          (Some (MArr (findBestMatchingCategory (p_productType product) categories))))
    (put "brand" (mkEntry (Some (p_vendor product)) (Some "brand") (Some (MStr (p_vendor product))))
    (put "vendor" (mkEntry (Some (p_vendor product)) (Some "manufacturer")
                     (Some (MStr (p_vendor product))))
    (put "description" (mkEntry (Some (p_description product)) (Some "description")
                          (Some (MStr (p_description product))))
    (put "title" (mkEntry (Some (p_title product)) (Some "name") (Some (MStr (p_title product))))
       ∅)))) in
  List.fold_left (fun m option =>
    let r := findBestMatchingAttribute (so_name option) (so_value option) attributes in
    <[so_name option := mkEntry (Some (so_value option)) (Some (attributeCode r))
                           (Some (MStr (optionValue r)))]> m) selectedOptions base.

Definition option_entry (attributes : list MagentoAttributeMetadata) (o : SelectedOption) : entry :=
  let r := findBestMatchingAttribute (so_name o) (so_value o) attributes in
  mkEntry (Some (so_value o)) (Some (attributeCode r)) (Some (MStr (optionValue r))).

Lemma fold_options_other (g : SelectedOption -> entry) (l : list SelectedOption)
    (m : AttributeMappingType) (k : string) :
  (forall o, In o l -> so_name o <> k) ->
  List.fold_left (fun m o => <[so_name o := g o]> m) l m !! k = m !! k.
Proof.
  revert m. induction l as [|o l IH]; intros m Hl; simpl; [reflexivity|].
  rewrite IH by (intros o' Ho'; apply Hl; by right).
  apply lookup_insert_ne. apply Hl. by left.
Qed.

Lemma fold_options_last (g : SelectedOption -> entry) (pre post : list SelectedOption)
    (o : SelectedOption) (m : AttributeMappingType) :
  (forall o', In o' post -> so_name o' <> so_name o) ->
  List.fold_left (fun m o => <[so_name o := g o]> m) (pre ++ o :: post)%list m !! so_name o =
    Some (g o).
Proof.
  intros Hp. rewrite List.fold_left_app. simpl.
  rewrite fold_options_other by exact Hp. apply lookup_insert_eq.
Qed.

Lemma put_lookup (ex : list string) (k : string) (e : entry) (m : AttributeMappingType)
    (k' : string) :
  (k = k' -> excluded ex k = true) ->
  (if excluded ex k then m else <[k := e]> m) !! k' = m !! k'.
Proof.
  intros H. destruct (excluded ex k) eqn:E; [reflexivity|].
  apply lookup_insert_ne. intros ->. specialize (H eq_refl). congruence.
Qed.

Definition initial_keys : list string :=
  ["title"; "description"; "vendor"; "brand"; "category_ids"].

(** Extra: in the initial mappings of the variant form, a key that is
    excluded, or is not one of the five product keys, is absent unless some
    selected option has that name; an option's name carries the matcher's
    result for the last option of that name. *)
Theorem initialMappings_keys (product : ShopifyProduct) (selectedOptions : list SelectedOption)
    (attributes : list MagentoAttributeMetadata) (categories : list CategoryOption)
    (excludeAttributes : list string) :
  (forall k, (excluded excludeAttributes k = true \/ ~ In k initial_keys) ->
     (forall o, In o selectedOptions -> so_name o <> k) ->
     initialMappings product selectedOptions attributes categories excludeAttributes !! k = None) /\
  (forall pre o post, selectedOptions = (pre ++ o :: post)%list ->
     (forall o', In o' post -> so_name o' <> so_name o) ->
     initialMappings product selectedOptions attributes categories excludeAttributes !! so_name o =
       Some (option_entry attributes o)).
Proof.
  split.
  - intros k Hk Ho. unfold initialMappings.
    rewrite (fold_options_other (option_entry attributes)) by exact Ho.
    assert (Hj : forall j, In j initial_keys -> j = k -> excluded excludeAttributes j = true).
    { intros j Hj <-. destruct Hk as [Hk|Hk]; [exact Hk|contradiction]. }
    rewrite !put_lookup; try reflexivity; apply Hj; simpl; tauto.
  - intros pre o post -> Hp. unfold initialMappings.
    exact (fold_options_last (option_entry attributes) pre post o _ Hp).
Qed.

(** Extra: changing the target attribute of a present field sets its
    [mappedTo], keeps its source value, and re-resolves its mapped value to the
    value of an option of the new attribute (one above the 0.6 similarity
    threshold) or else back to the source value; besides that field only
    [brand] can change, and only for [vendor] mapped to [manufacturer], where
    it mirrors the field. *)
Theorem handleAttributeChange_result (attributes : list MagentoAttributeMetadata)
    (mappings : AttributeMappingType) (shopifyAttr magentoAttr : string) (cur : entry)
    (Hcur : mappings !! shopifyAttr = Some cur) :
  exists m' mv,
    handleAttributeChange attributes mappings shopifyAttr magentoAttr = Some m' /\
    m' !! shopifyAttr = Some (mkEntry (e_value cur) (Some magentoAttr) mv) /\
    (mv = MStr <$> e_value cur \/
     exists a os o, find_attr magentoAttr attributes = Some a /\ options a = Some os /\
       In o os /\ js_gt (option_sim (default "" (e_value cur)) o) (JNum (6 # 10)) = true /\
       mv = Some (MStr (opt_value o))) /\
    (forall k, k <> shopifyAttr ->
       (shopifyAttr = "vendor" -> magentoAttr = "manufacturer" -> k <> "brand") ->
       m' !! k = mappings !! k) /\
    (shopifyAttr = "vendor" -> magentoAttr = "manufacturer" ->
       m' !! "brand" = Some (mkEntry (e_value cur) (Some "brand") mv)).
Proof.
  unfold handleAttributeChange. rewrite Hcur.
  set (mv := match find_attr magentoAttr attributes ≫= options with
             | Some os =>
                 if str_truthy (findBestMatchingOptionValue (default "" (e_value cur)) (Some os))
                 then Some (MStr (findBestMatchingOptionValue (default "" (e_value cur)) (Some os)))
                 else MStr <$> e_value cur
             | None => MStr <$> e_value cur
             end).
  assert (Hmv : mv = MStr <$> e_value cur \/
     exists a os o, find_attr magentoAttr attributes = Some a /\ options a = Some os /\
       In o os /\ js_gt (option_sim (default "" (e_value cur)) o) (JNum (6 # 10)) = true /\
       mv = Some (MStr (opt_value o))).
  { unfold mv. destruct (find_attr magentoAttr attributes) as [a|] eqn:Ea;
      [change (Some a ≫= options) with (options a)|by left].
    destruct (options a) as [os|] eqn:Eo; [|by left].
    destruct (default "" (e_value cur)) as [|c r] eqn:Ev.
    - left. reflexivity.
    - destruct (findBestMatchingOptionValue_spec (String c r) os ltac:(discriminate))
        as [(pre & o & post & Hl & Ho & _ & _ & Hf)|[Hf _]]; rewrite Hf.
      + destruct (str_truthy (opt_value o)); [|by left].
        right. exists a, os, o. split; [reflexivity|]. split; [exact Eo|].
        split; [rewrite Hl; apply List.in_app_iff; right; by left|]. tauto.
      + by left. }
  destruct (str_eqb shopifyAttr "vendor" && str_eqb magentoAttr "manufacturer") eqn:E.
  - apply andb_true_iff in E as [E1 E2]. unfold str_eqb in E1, E2.
    apply String.eqb_eq in E1, E2. subst shopifyAttr magentoAttr.
    eexists _, mv. split; [reflexivity|].
    split; [rewrite lookup_insert_ne by discriminate; apply lookup_insert_eq|].
    split; [exact Hmv|]. split.
    + intros k Hk Hb. rewrite lookup_insert_ne by (symmetry; exact (Hb eq_refl eq_refl)).
      by rewrite lookup_insert_ne by congruence.
    + intros _ _. apply lookup_insert_eq.
  - eexists _, mv. split; [reflexivity|]. split; [apply lookup_insert_eq|].
    split; [exact Hmv|]. split.
    + intros k Hk _. by rewrite lookup_insert_ne by congruence.
    + intros -> ->. discriminate.
Qed.

Lemma handleAttributeChange_result_witness :
  let cat := [mkAttr "color" "select" "Color" (Some [mkOption "Red" "5"; mkOption "Blue" "6"])] in
  let M := <["Color" := mkEntry (Some "blue") (Some "") (Some (MStr ""))]>
           (∅ : AttributeMappingType) in
  exists m' mv,
    handleAttributeChange cat M "Color" "color" = Some m' /\
    m' !! "Color" = Some (mkEntry (Some "blue") (Some "color") mv) /\
    (mv = MStr <$> Some "blue" \/
     exists a os o, find_attr "color" cat = Some a /\ options a = Some os /\
       In o os /\ js_gt (option_sim (default "" (Some "blue")) o) (JNum (6 # 10)) = true /\
       mv = Some (MStr (opt_value o))) /\
    (forall k, k <> "Color" -> ("Color" = "vendor" -> "color" = "manufacturer" -> k <> "brand") ->
       m' !! k = M !! k) /\
    ("Color" = "vendor" -> "color" = "manufacturer" ->
       m' !! "brand" = Some (mkEntry (Some "blue") (Some "brand") mv)).
Proof.
  intros cat M.
  apply (handleAttributeChange_result cat M "Color" "color"
           (mkEntry (Some "blue") (Some "") (Some (MStr "")))).
  apply lookup_insert_eq.
Defined.

(** Extra: editing a field's value replaces its mapped value and keeps its
    source value and target; besides that field only [brand] can change, and
    only when the field is [vendor] mapped to [manufacturer], where brand's
    mapped value follows.  Editing [vendor] while it is absent raises a
    TypeError; any other field may be absent (it is then created). *)
Theorem handleValueChange_result (mappings : AttributeMappingType) (shopifyAttr : string)
    (value : mval) :
  (shopifyAttr = "vendor" -> mappings !! "vendor" = None ->
     handleValueChange mappings shopifyAttr value = None) /\
  ((shopifyAttr <> "vendor" \/ is_Some (mappings !! "vendor")) ->
   exists m', handleValueChange mappings shopifyAttr value = Some m' /\
     m' !! shopifyAttr = Some (mkEntry (mappings !! shopifyAttr ≫= e_value)
                                       (mappings !! shopifyAttr ≫= e_mappedTo) (Some value)) /\
     (forall k, k <> shopifyAttr -> k <> "brand" -> m' !! k = mappings !! k) /\
     (shopifyAttr <> "brand" ->
        m' !! "brand" = mappings !! "brand" \/
        (shopifyAttr = "vendor" /\ (mappings !! "vendor" ≫= e_mappedTo) = Some "manufacturer" /\
         m' !! "brand" = Some (mkEntry (mappings !! "brand" ≫= e_value)
                                       (mappings !! "brand" ≫= e_mappedTo) (Some value))))).
Proof.
  unfold handleValueChange. split.
  - intros -> H. rewrite H. reflexivity.
  - intros Hpre. destruct (str_eqb shopifyAttr "vendor") eqn:Ev.
    + unfold str_eqb in Ev. apply String.eqb_eq in Ev. subst shopifyAttr.
      destruct (mappings !! "vendor") as [cur|] eqn:Ec;
        [|destruct Hpre as [H|H]; [congruence|by destruct H]].
      simpl. case_bool_decide as Hm.
      * eexists. split; [reflexivity|].
        split; [rewrite lookup_insert_ne by discriminate; apply lookup_insert_eq|].
        split; [intros k Hk Hb; by rewrite !lookup_insert_ne by congruence|].
        intros _. right. split; [reflexivity|]. split; [exact Hm|]. apply lookup_insert_eq.
      * eexists. split; [reflexivity|]. split; [apply lookup_insert_eq|].
        split; [intros k Hk _; by rewrite lookup_insert_ne by congruence|].
        intros _. left. by rewrite lookup_insert_ne by discriminate.
    + assert (Hn : shopifyAttr <> "vendor")
        by (intros ->; discriminate).
      eexists. split; [reflexivity|]. split; [apply lookup_insert_eq|].
      split; [intros k Hk _; by rewrite lookup_insert_ne by congruence|].
      intros Hb. left. by rewrite lookup_insert_ne by congruence.
Qed.

(** ** handleSaveMapping *)

(** The variants [handleSaveMapping] imports: those whose SKU is not a child
    of the configurable product yet. *)
Definition new_variants (existingVariantSkus : list string) (variantMappings : list VariantMapping)
    : list VariantMapping :=
  List.filter (fun m => negb (str_includes existingVariantSkus (v_sku (vm_variant m))))
    variantMappings.

Lemma import_variants_ok (net : nat -> fetch_outcome) (sku : string)
    (vs : list VariantMapping) (log : list request) :
  (forall n, net n = FOk) ->
  import_variants net sku vs log =
  ((log ++ ((fun v => ImportVariant (vm_variant v) sku) <$> vs))%list, inr tt).
Proof.
  intros Hok. revert log. induction vs as [|v vs IH]; intros log; simpl.
  - by rewrite app_nil_r.
  - unfold bind, fetch. rewrite Hok, IH. by rewrite <- app_assoc.
Qed.

Lemma check_attributes_ok (codes : list string) (attributes : list MagentoAttributeMetadata)
    (log : list request) :
  (forall c, In c codes -> is_Some (find_attr c attributes)) ->
  check_attributes codes attributes log = (log, inr tt).
Proof.
  intros H. induction codes as [|c cs IH]; simpl; [reflexivity|].
  destruct (H c (or_introl eq_refl)) as [a ->]. apply IH.
  intros c' Hc'. apply H. by right.
Qed.

(** Extra: when every request succeeds, the save issues the creation of the
    configurable product (for a new one) with its configurable attribute codes,
    then one import per new variant in list order, and reports success; this
    needs at least one new variant and, for a new configurable product, at
    least one configurable attribute code, each found in the catalog. *)
Theorem handleSaveMapping_all_ok (net : nat -> fetch_outcome) (configurableSku : string)
    (isNewConfigurable : bool) (existingVariantSkus : list string)
    (attributes : list MagentoAttributeMetadata) (variantMappings : list VariantMapping)
    (Hok : forall n, net n = FOk)
    (Hnew : new_variants existingVariantSkus variantMappings <> [])
    (Hcodes : isNewConfigurable = true ->
       configurable_codes (new_variants existingVariantSkus variantMappings) <> [] /\
       forall c, In c (configurable_codes (new_variants existingVariantSkus variantMappings)) ->
         is_Some (find_attr c attributes)) :
  handleSaveMapping net configurableSku isNewConfigurable existingVariantSkus attributes
    variantMappings =
  ((if isNewConfigurable
    then [CreateConfigurable configurableSku
            (configurable_codes (new_variants existingVariantSkus variantMappings))]
    else []) ++
   ((fun v => ImportVariant (vm_variant v) configurableSku) <$>
      new_variants existingVariantSkus variantMappings), "Import successful!")%list.
Proof.
  unfold handleSaveMapping, save_body. fold (new_variants existingVariantSkus variantMappings).
  destruct (new_variants existingVariantSkus variantMappings) as [|v vs] eqn:Ef;
    [congruence|].
  rewrite <- Ef in Hcodes |- *. unfold bind at 1.
  destruct isNewConfigurable.
  - destruct (Hcodes eq_refl) as [Hne Hfound].
    unfold create_configurable, bind at 1. rewrite check_attributes_ok by exact Hfound.
    destruct (configurable_codes (new_variants existingVariantSkus variantMappings)) as [|c cs] eqn:Ec;
      [congruence|].
    unfold bind, fetch. rewrite Hok. simpl. rewrite import_variants_ok by exact Hok.
    reflexivity.
  - simpl. rewrite import_variants_ok by exact Hok. reflexivity.
Qed.

Lemma handleSaveMapping_all_ok_witness :
  let V1 := mkVM (mkVariant "S-1" "Red") ∅ in
  let V2 := mkVM (mkVariant "S-2" "Blue") ∅ in
  handleSaveMapping (fun _ => FOk) "CFG" false ["S-1"] [] [V1; V2] =
  (([] : list request) ++ ((fun v => ImportVariant (vm_variant v) "CFG") <$>
      new_variants ["S-1"] [V1; V2]), "Import successful!")%list.
Proof.
  intros V1 V2.
  apply (handleSaveMapping_all_ok (fun _ => FOk) "CFG" false ["S-1"] [] [V1; V2]).
  - intros n. reflexivity.
  - vm_compute. discriminate.
  - intros H. discriminate.
Defined.

(** Extra: when every variant's SKU is already a child of the configurable
    product, the save issues no request at all and reports
    "Import failed: No new variants to import". *)
Theorem handleSaveMapping_nothing_new (net : nat -> fetch_outcome) (configurableSku : string)
    (isNewConfigurable : bool) (existingVariantSkus : list string)
    (attributes : list MagentoAttributeMetadata) (variantMappings : list VariantMapping)
    (Hall : forall vm, In vm variantMappings ->
              str_includes existingVariantSkus (v_sku (vm_variant vm)) = true) :
  handleSaveMapping net configurableSku isNewConfigurable existingVariantSkus attributes
    variantMappings = ([], "Import failed: No new variants to import").
Proof.
  unfold handleSaveMapping, save_body.
  replace (List.filter _ variantMappings) with (@nil VariantMapping); [reflexivity|].
  induction variantMappings as [|vm vms IH]; [reflexivity|]. simpl.
  rewrite (Hall vm (or_introl eq_refl)). simpl.
  apply IH. intros vm' H. apply Hall. by right.
Qed.

Lemma handleSaveMapping_nothing_new_witness :
  handleSaveMapping (fun _ => FOk) "CFG" true ["S-1"] []
    [mkVM (mkVariant "S-1" "Red") ∅] = ([], "Import failed: No new variants to import").
Proof.
  apply handleSaveMapping_nothing_new. intros vm [<-|[]]. reflexivity.
Defined.



(** ** The Shopify batch import, server and client *)









(** ** Selection widgets *)

(** [toggleOption] of CategorySelect.tsx. *)
Definition toggleOption (value : list string) (optionValue : string) : list string :=
  if str_includes value optionValue
  then List.filter (fun v => negb (str_eqb v optionValue)) value
  else app value [optionValue].

(** [handleStoreToggle] of TargetStoreSelector (ProductMapper.tsx). *)
Definition handleStoreToggle (selectedStores : list string) (storeId : string) : list string :=
  if str_includes selectedStores storeId
  then List.filter (fun id => negb (str_eqb id storeId)) selectedStores
  else app selectedStores [storeId].

Lemma str_includes_In (l : list string) (s : string) : str_includes l s = true <-> In s l.
Proof.
  unfold str_includes, str_eqb. rewrite List.existsb_exists. split.
  - intros [x [Hx E]]. apply String.eqb_eq in E. by subst.
  - intros H. exists s. split; [exact H|]. apply String.eqb_refl.
Qed.

Lemma filter_remove_absent (l : list string) (s : string) :
  ~ In s l -> List.filter (fun v => negb (str_eqb v s)) (app l [s]) = l.
Proof.
  intros H. induction l as [|x l IH]; simpl.
  - unfold str_eqb. by rewrite String.eqb_refl.
  - unfold str_eqb at 1. destruct (String.eqb_spec x s) as [->|Hne].
    + exfalso. apply H. by left.
    + simpl. f_equal. apply IH. intros Hs. apply H. by right.
Qed.

Lemma toggle_spec (l : list string) (s : string) :
  let t := if str_includes l s then List.filter (fun v => negb (str_eqb v s)) l else app l [s] in
  (In s t <-> ~ In s l) /\ (forall x, x <> s -> (In x t <-> In x l)) /\
  (~ In s l -> (if str_includes t s then List.filter (fun v => negb (str_eqb v s)) t
                else app t [s]) = l).
Proof.
  intros t. unfold t. destruct (str_includes l s) eqn:E.
  - apply str_includes_In in E. split; [|split].
    + rewrite List.filter_In. unfold str_eqb. rewrite String.eqb_refl. simpl. split; [intros [_ H]; discriminate|intros H; contradiction].
    + intros x Hx. rewrite List.filter_In. unfold str_eqb.
      apply String.eqb_neq in Hx. rewrite Hx. simpl. tauto.
    + intros H. contradiction.
  - assert (Hn : ~ In s l) by (intros H; apply str_includes_In in H; congruence).
    split; [|split].
    + rewrite List.in_app_iff. simpl. tauto.
    + intros x Hx. rewrite List.in_app_iff. simpl. split; [|tauto].
      intros [H|[H|[]]]; [exact H|congruence].
    + intros _. assert (Ht : str_includes (app l [s]) s = true)
        by (apply str_includes_In, List.in_app_iff; simpl; tauto).
      rewrite Ht. exact (filter_remove_absent l s Hn).
Qed.

(** Extra: toggling a category or a target store flips that item's
    membership in the selection and leaves every other item's membership
    unchanged; toggling an unselected item twice restores the selection. *)
Theorem toggle_flips (l : list string) (s : string) :
  (In s (toggleOption l s) <-> ~ In s l) /\
  (forall x, x <> s -> (In x (toggleOption l s) <-> In x l)) /\
  (~ In s l -> toggleOption (toggleOption l s) s = l) /\
  (In s (handleStoreToggle l s) <-> ~ In s l) /\
  (forall x, x <> s -> (In x (handleStoreToggle l s) <-> In x l)) /\
  (~ In s l -> handleStoreToggle (handleStoreToggle l s) s = l).
Proof.
  destruct (toggle_spec l s) as (H1 & H2 & H3).
  unfold toggleOption, handleStoreToggle. tauto.
Qed.

(** [Array.prototype.sort] with a comparator returning a number: stable
    (ES2019); for a consistent comparator every stable sort gives the order of
    this insertion sort. *)
Fixpoint insert_by {B} (cmp : B -> B -> Z) (x : B) (l : list B) : list B :=
  match l with
  | [] => [x]
  | y :: l' => if Z.leb (cmp y x) 0 then y :: insert_by cmp x l' else x :: l
  end.

Definition sort_by {B} (cmp : B -> B -> Z) (l : list B) : list B :=
  List.fold_left (fun acc x => insert_by cmp x acc) l [].

Lemma insert_by_perm {B} (cmp : B -> B -> Z) (x : B) (l : list B) :
  Permutation (insert_by cmp x l) (x :: l).
Proof.
  induction l as [|y l IH]; simpl; [reflexivity|].
  destruct (Z.leb (cmp y x) 0); [|reflexivity].
  etransitivity; [apply perm_skip, IH|apply perm_swap].
Qed.

Lemma sort_by_perm {B} (cmp : B -> B -> Z) (l : list B) : Permutation (sort_by cmp l) l.
Proof.
  unfold sort_by. assert (H : forall acc, Permutation (List.fold_left (fun acc x => insert_by cmp x acc) l acc) (app acc l)).
  { induction l as [|x l IH]; intros acc; simpl; [by rewrite app_nil_r|].
    rewrite IH. rewrite (insert_by_perm cmp x acc). simpl.
    apply Permutation_middle. }
  rewrite H. reflexivity.
Qed.

Section CategorySort.
(** [String.prototype.localeCompare]: any comparison of labels. *)
Variable localeCompare : string -> string -> Z.

(** The [CategoryOption] of CategorySelect.tsx (fields the code reads). *)
Record CategorySelectOption := mkCSO { cso_label : string; cso_value : string; cso_level : Z }.

Definition category_cmp (a b : CategorySelectOption) : Z :=
  if negb (Z.eqb (cso_level a) (cso_level b)) then cso_level a - cso_level b
  else localeCompare (cso_label a) (cso_label b).

Definition sortedCategories (options : list CategorySelectOption) : list CategorySelectOption :=
  sort_by category_cmp options.

Definition label_matches (searchTerm : string) (category : CategorySelectOption) : bool :=
  includes (toLowerCase (cso_label category)) (toLowerCase searchTerm).

Definition filteredCategories (searchTerm : string) (options : list CategorySelectOption)
    : list CategorySelectOption :=
  if negb (str_truthy searchTerm) then sortedCategories options
  else List.filter (label_matches searchTerm) (sortedCategories options).

Definition level_le (a b : CategorySelectOption) : Prop := (cso_level a <= cso_level b)%Z.

Lemma insert_by_level_sorted (x : CategorySelectOption) (l : list CategorySelectOption) :
  Sorted level_le l -> Sorted level_le (insert_by category_cmp x l).
Proof.
  assert (Hle : forall y, Z.leb (category_cmp y x) 0 = true -> level_le y x).
  { intros y. unfold category_cmp, level_le.
    destruct (Z.eqb_spec (cso_level y) (cso_level x)); simpl; intros H; [lia|].
    apply Z.leb_le in H. lia. }
  assert (Hgt : forall y, Z.leb (category_cmp y x) 0 = false -> level_le x y).
  { intros y. unfold category_cmp, level_le.
    destruct (Z.eqb_spec (cso_level y) (cso_level x)); simpl; intros H; [lia|].
    apply Z.leb_gt in H. lia. }
  induction 1 as [|y l Hs IH Hhd]; simpl; [by repeat constructor|].
  destruct (Z.leb (category_cmp y x) 0) eqn:E.
  - constructor; [exact IH|]. destruct l as [|z l]; simpl; [constructor; exact (Hle y E)|].
    destruct (Z.leb (category_cmp z x) 0); constructor;
      [by inversion Hhd|exact (Hle y E)].
  - constructor; [constructor; [exact Hs|exact Hhd]|]. constructor. exact (Hgt y E).
Qed.

Lemma sortedCategories_sorted (options : list CategorySelectOption) :
  Sorted level_le (sortedCategories options).
Proof.
  unfold sortedCategories, sort_by.
  assert (H : forall acc, Sorted level_le acc ->
    Sorted level_le (List.fold_left (fun acc x => insert_by category_cmp x acc) options acc)).
  { induction options as [|x l IH]; intros acc Hacc; simpl; [exact Hacc|].
    apply IH, insert_by_level_sorted, Hacc. }
  apply H. constructor.
Qed.

Lemma level_le_filter (f : CategorySelectOption -> bool) (l : list CategorySelectOption) :
  Sorted level_le l -> Sorted level_le (List.filter f l).
Proof.
  intros H. apply StronglySorted_Sorted.
  apply Sorted_StronglySorted in H; [|intros a b c; unfold level_le; lia].
  induction H as [|x l Hs IH Hall]; simpl; [constructor|].
  destruct (f x); [|exact IH]. constructor; [exact IH|].
  apply List.Forall_forall. intros y Hy. apply List.filter_In in Hy.
  rewrite List.Forall_forall in Hall. apply Hall, Hy.
Qed.
End CategorySort.

(** Extra: whatever [localeCompare] answers, the category picker lists the
    categories by non-decreasing level, and lists exactly the options whose
    label contains the search term case-insensitively (all options for an
    empty term). *)
Theorem filteredCategories_sorted_by_level (localeCompare : string -> string -> Z)
    (searchTerm : string) (options : list CategorySelectOption) :
  Sorted level_le (filteredCategories localeCompare searchTerm options) /\
  Permutation (filteredCategories localeCompare searchTerm options)
    (if str_truthy searchTerm then List.filter (label_matches searchTerm) options else options).
Proof.
  unfold filteredCategories. destruct (str_truthy searchTerm); simpl.
  - split; [apply level_le_filter, sortedCategories_sorted|].
    apply filter_perm, sort_by_perm.
  - split; [apply sortedCategories_sorted|apply sort_by_perm].
Qed.

(** ** SearchableSelect.tsx *)

Definition ITEM_LIMIT : nat := 100.

(** [sortedOptions]: [[...options].sort((a, b) => a.label.localeCompare(b.label))]. *)
Definition sortedOptions (localeCompare : string -> string -> Z) (options : list attr_option)
    : list attr_option :=
  sort_by (fun a b => localeCompare (opt_label a) (opt_label b)) options.

Definition option_label_matches (searchTerm : string) (option : attr_option) : bool :=
  includes (toLowerCase (opt_label option)) (toLowerCase searchTerm).

(** The [displayedOptions] the effect computes from the search term. *)
Definition displayedOptions (localeCompare : string -> string -> Z) (searchTerm : string)
    (options : list attr_option) : list attr_option :=
  if str_truthy searchTerm
  then List.firstn ITEM_LIMIT (List.filter (option_label_matches searchTerm)
                                 (sortedOptions localeCompare options))
  else List.firstn ITEM_LIMIT (sortedOptions localeCompare options).

(** Extra: the searchable select shows at most 100 options, each one of the
    given options and, for a non-empty search term, containing it
    case-insensitively; when at most 100 options match, it shows all of
    them. *)
Theorem displayedOptions_sound (localeCompare : string -> string -> Z) (searchTerm : string)
    (options : list attr_option) :
  let shown := displayedOptions localeCompare searchTerm options in
  let matching := if str_truthy searchTerm
                  then List.filter (option_label_matches searchTerm) options else options in
  List.length shown <= ITEM_LIMIT /\
  (forall o, In o shown -> In o matching) /\
  (List.length matching <= ITEM_LIMIT -> Permutation shown matching).
Proof.
  intros shown matching.
  assert (Hp : Permutation (if str_truthy searchTerm
                            then List.filter (option_label_matches searchTerm)
                                   (sortedOptions localeCompare options)
                            else sortedOptions localeCompare options) matching).
  { unfold matching. destruct (str_truthy searchTerm);
      [apply filter_perm|]; apply sort_by_perm. }
  assert (Hs : shown = List.firstn ITEM_LIMIT
                         (if str_truthy searchTerm
                          then List.filter (option_label_matches searchTerm)
                                 (sortedOptions localeCompare options)
                          else sortedOptions localeCompare options)).
  { unfold shown, displayedOptions. by destruct (str_truthy searchTerm). }
  rewrite Hs. split; [|split].
  - rewrite List.length_firstn. lia.
  - intros o Ho. apply (Permutation_in _ Hp).
    rewrite <- (List.firstn_skipn ITEM_LIMIT). apply List.in_or_app. by left.
  - intros Hl. rewrite List.firstn_all2; [exact Hp|].
    rewrite (Permutation_length Hp). exact Hl.
Qed.

(** What the [/create-attribute-value] call can come back with. *)
Inductive create_response :=
| CReject (msg : string)                                   (** [fetch] rejects *)
| CBadJson (msg : string)                                  (** [response.json()] rejects *)
| CJson (ok : bool) (error : option string) (optionValue : option string).
  (** [response.ok], [data.error], [data.option?.value] ([None]: no [data.option]) *)

(** The effects of [handleCreateValue]: whether the request is sent, the
    [onChange(value, label, updatedOptions)] call if any, and the
    [createError] left. *)
Record create_effect := mkCreateEffect {
  ce_sent : bool;
  ce_onChange : option (string * string * list attr_option);
  ce_error : option string
}.

Definition handleCreateValue (attributeCode : option string) (searchTerm : string)
    (options : list attr_option) (resp : create_response) : create_effect :=
  if negb (match attributeCode with Some c => str_truthy c | None => false end)
     || negb (str_truthy (trim searchTerm))
  then mkCreateEffect false None None
  else
    match resp with
    | CReject msg | CBadJson msg => mkCreateEffect true None (Some msg)
    | CJson false err _ =>
        mkCreateEffect true None
          (Some (match err with
                 | Some e => if str_truthy e then e else "Failed to create attribute value"
                 | None => "Failed to create attribute value"
                 end))
    | CJson true _ None => mkCreateEffect true None (Some cannot_read)
    | CJson true _ (Some v) =>
        let newOption := mkOption (trim searchTerm) v in
        mkCreateEffect true (Some (v, trim searchTerm, app options [newOption])) None
    end.

(** Extra: creating a value sends nothing for a missing attribute code or a
    blank search term; otherwise the new option list passed to [onChange]
    is the old list with exactly one option appended, labelled by the trimmed
    search term, and [onChange] is called exactly when no error is left. *)
Theorem handleCreateValue_appends (attributeCode : option string) (searchTerm : string)
    (options : list attr_option) (resp : create_response) :
  let eff := handleCreateValue attributeCode searchTerm options resp in
  ((attributeCode = None \/ attributeCode = Some "" \/ trim searchTerm = "") ->
     eff = mkCreateEffect false None None) /\
  (forall value label newOptions, ce_onChange eff = Some (value, label, newOptions) ->
     ce_sent eff = true /\ label = trim searchTerm /\ label <> "" /\
     newOptions = app options [mkOption label value] /\ ce_error eff = None) /\
  (ce_sent eff = true -> (ce_onChange eff = None <-> ce_error eff <> None)).
Proof.
  intros eff. unfold eff, handleCreateValue. split; [|split].
  - intros [->|[->|H]]; [reflexivity|reflexivity|].
    rewrite H. destruct attributeCode as [[|c r]|]; reflexivity.
  - destruct (negb _ || negb _) eqn:E; [intros ???; discriminate|].
    apply orb_false_iff in E as [_ E]. apply negb_false_iff in E.
    destruct resp as [m|m|[] err [v|]]; simpl; intros ??? H; try discriminate.
    injection H as <- <- <-. repeat split; try reflexivity.
    intros Ht. rewrite Ht in E. discriminate.
  - destruct (negb _ || negb _); [intros; discriminate|].
    destruct resp as [m|m|[] err [v|]]; simpl; intros _;
      split; intros H; try congruence; try discriminate; exfalso; apply H; reflexivity.
Qed.

(** ** handleVariantMapping (MultiVariantMapping.tsx) *)




